(** * EviCal: a command-line calendar client

    A shallow embedding of [evical_cmd.py].  The program is a thin layer of
    glue around four calls to a remote calendar service, so the embedding
    makes the outside world explicit: every library call the commands make
    is either modelled (the [datetime] arithmetic, [strptime] for the one
    format the program uses, the checks of the table library) or answered
    by a [world] record (clock, local time zone, token file, remote service,
    terminal).  A command is a function from the object store to a new
    store, the list of observable events it produced, and either a value or
    the exception that left the function. *)

From stdpp Require Import base gmap strings list pretty.
From Stdlib Require Import ZArith Lia.

Local Open Scope string_scope.
Local Open Scope list_scope.
Local Open Scope Z_scope.

(** ** Exceptions and results *)

Inductive exn :=
| AssertionError
| ValueError
| OverflowError
| AttributeError
| KeyError (key : string)
| HttpError (status : Z) (text : string)
| ClickAbort
| OtherError (name : string).

Inductive result (A : Type) :=
| Return (a : A)
| Raise (e : exn).
Arguments Return {A} a.
Arguments Raise {A} e.

Definition rbind {A B} (r : result A) (k : A -> result B) : result B :=
  match r with
  | Return a => k a
  | Raise e => Raise e
  end.

Declare Scope result_scope.
Delimit Scope result_scope with result.
Notation "x <-? r ; k" := (rbind r (fun x => k))
  (at level 100, r at next level, right associativity) : result_scope.

(** ** Python's [datetime] module

    The proleptic Gregorian calendar of the reference implementation
    ([_pydatetime.py]): ordinals count days from 0001-01-01 = 1. *)

Module Calendar.

Definition MINYEAR : Z := 1.
Definition MAXYEAR : Z := 9999.
Definition _MAXORDINAL : Z := 3652059.

Definition _DAYS_IN_MONTH : list Z :=
  [-1; 31; 28; 31; 30; 31; 30; 31; 31; 30; 31; 30; 31].
Definition _DAYS_BEFORE_MONTH : list Z :=
  [-1; 0; 31; 59; 90; 120; 151; 181; 212; 243; 273; 304; 334].

Definition index (l : list Z) (i : Z) : Z := nth (Z.to_nat i) l 0.

Definition _is_leap (year : Z) : bool :=
  (year mod 4 =? 0) && (negb (year mod 100 =? 0) || (year mod 400 =? 0)).

Definition _days_before_year (year : Z) : Z :=
  let y := year - 1 in
  y * 365 + y / 4 - y / 100 + y / 400.

Definition _days_in_month (year month : Z) : Z :=
  if (month =? 2) && _is_leap year then 29 else index _DAYS_IN_MONTH month.

Definition _days_before_month (year month : Z) : Z :=
  index _DAYS_BEFORE_MONTH month
  + (if (2 <? month) && _is_leap year then 1 else 0).

Definition _ymd2ord (year month day : Z) : Z :=
  _days_before_year year + _days_before_month year month + day.

Definition _DI400Y : Z := 146097.
Definition _DI100Y : Z := 36524.
Definition _DI4Y : Z := 1461.

(** [divmod] with a positive divisor is [Z.div_eucl]. *)
Definition _ord2ymd (n : Z) : Z * Z * Z :=
  let n := n - 1 in
  let '(n400, n) := Z.div_eucl n _DI400Y in
  let year := n400 * 400 + 1 in
  let '(n100, n) := Z.div_eucl n _DI100Y in
  let '(n4, n) := Z.div_eucl n _DI4Y in
  let '(n1, n) := Z.div_eucl n 365 in
  let year := year + (n100 * 100 + n4 * 4 + n1) in
  if (n1 =? 4) || (n100 =? 4) then (year - 1, 12, 31)
  else
    let leapyear := (n1 =? 3) && (negb (n4 =? 24) || (n100 =? 3)) in
    let month := Z.shiftr (n + 50) 5 in
    let preceding :=
      index _DAYS_BEFORE_MONTH month
      + (if (2 <? month) && leapyear then 1 else 0) in
    if n <? preceding then
      let month := month - 1 in
      let preceding :=
        preceding
        - (index _DAYS_IN_MONTH month
           + (if (month =? 2) && leapyear then 1 else 0)) in
      (year, month, n - preceding + 1)
    else (year, month, n - preceding + 1).

End Calendar.
Import Calendar.

(** A naive [datetime] object: the wall-clock fields. *)
Record datetime := mk_datetime {
  dt_year : Z; dt_month : Z; dt_day : Z;
  dt_hour : Z; dt_minute : Z; dt_second : Z; dt_microsecond : Z
}.

(** An aware [datetime] whose [tzinfo] is a fixed-offset [timezone]:
    the wall-clock fields and [utcoffset()] in seconds. *)
Record aware := mk_aware {
  aw_wall : datetime;
  aw_utcoffset : Z
}.

(** A [timedelta] is determined by its total number of microseconds. *)
Definition timedelta := Z.

Definition US_PER_SECOND : Z := 1000000.
Definition US_PER_DAY : Z := 86400 * US_PER_SECOND.

Definition timedelta_seconds (s : Z) : timedelta := s * US_PER_SECOND.
Definition timedelta_milliseconds (ms : Z) : timedelta := ms * 1000.

(** The arguments of the [datetime] constructor are converted to C
    [int]s; a Python integer that does not fit is an [OverflowError]. *)
Definition INT_MIN : Z := -2147483648.
Definition INT_MAX : Z := 2147483647.

Definition fits_int (n : Z) : bool := (INT_MIN <=? n) && (n <=? INT_MAX).

(** [datetime(year, month, day)]: the conversion of the arguments, then
    the range checks of the date fields, then construction; the time of
    day is midnight. *)
Definition datetime_ymd (year month day : Z) : result datetime :=
  if negb (fits_int year && fits_int month && fits_int day)
  then Raise OverflowError
  else if negb ((MINYEAR <=? year) && (year <=? MAXYEAR)) then Raise ValueError
  else if negb ((1 <=? month) && (month <=? 12)) then Raise ValueError
  else if negb ((1 <=? day) && (day <=? _days_in_month year month))
       then Raise ValueError
  else Return (mk_datetime year month day 0 0 0 0).

Definition toordinal (d : datetime) : Z :=
  _ymd2ord (dt_year d) (dt_month d) (dt_day d).

(** Microseconds since the (virtual) midnight that starts ordinal 0. *)
Definition wall_us (d : datetime) : Z :=
  toordinal d * US_PER_DAY
  + ((dt_hour d * 3600 + dt_minute d * 60 + dt_second d) * US_PER_SECOND
     + dt_microsecond d).

(** [datetime.__add__]: the sum is normalised to days, seconds and
    microseconds; a day outside [1 .. _MAXORDINAL] is an [OverflowError]. *)
Definition datetime_add (d : datetime) (delta : timedelta) : result datetime :=
  let total := wall_us d + delta in
  let days := total / US_PER_DAY in
  let rem := total mod US_PER_DAY in
  let seconds := rem / US_PER_SECOND in
  let us := rem mod US_PER_SECOND in
  let hour := seconds / 3600 in
  let rem := seconds mod 3600 in
  let minute := rem / 60 in
  let second := rem mod 60 in
  if (0 <? days) && (days <=? _MAXORDINAL) then
    let '(y, m, dd) := _ord2ymd days in
    Return (mk_datetime y m dd hour minute second us)
  else Raise OverflowError.

(** [datetime.__sub__] with a [timedelta] operand is [self + -other]. *)
Definition datetime_sub (d : datetime) (delta : timedelta) : result datetime :=
  datetime_add d (- delta).

(** Arithmetic on an aware value works on the wall clock and keeps the
    [tzinfo]. *)
Definition aware_sub (a : aware) (delta : timedelta) : result aware :=
  (w <-? datetime_sub (aw_wall a) delta;
   Return (mk_aware w (aw_utcoffset a)))%result.

(** The position of an aware value on the UTC time line, in microseconds. *)
Definition instant_us (a : aware) : Z :=
  wall_us (aw_wall a) - timedelta_seconds (aw_utcoffset a).

(** *** The local time zone

    [datetime.astimezone] of the C implementation asks the platform's
    [localtime] for the zone.  Its helpers count seconds from the midnight
    that starts ordinal 0; [epoch] is 1970-01-01 on that scale. *)

Definition epoch : Z := 719163 * 24 * 60 * 60.
Definition max_fold_seconds : Z := 24 * 3600.

Definition utc_to_seconds (year month day hour minute second : Z) : result Z :=
  if negb ((MINYEAR <=? year) && (year <=? MAXYEAR)) then Raise ValueError
  else Return (((_ymd2ord year month day * 24 + hour) * 60 + minute) * 60
               + second).

(** *** Text forms *)

Fixpoint zeros (n : nat) : string :=
  match n with
  | O => ""
  | S k => "0" +:+ zeros k
  end.

(** ["%0<width>d" % n] for a non-negative [n]. *)
Definition fmt_d (width : nat) (n : Z) : string :=
  let digits := pretty n in
  zeros (width - String.length digits) +:+ digits.

Definition _format_time (hh mm ss us : Z) : string :=
  if us =? 0 then
    fmt_d 2 hh +:+ ":" +:+ fmt_d 2 mm +:+ ":" +:+ fmt_d 2 ss
  else
    fmt_d 2 hh +:+ ":" +:+ fmt_d 2 mm +:+ ":" +:+ fmt_d 2 ss
    +:+ "." +:+ fmt_d 6 us.

(** [_format_offset] for an offset of a whole number of seconds. *)
Definition _format_offset (off : Z) : string :=
  let sign := if off <? 0 then "-" else "+" in
  let off := if off <? 0 then - off else off in
  let hh := off / 3600 in
  let mm := (off mod 3600) / 60 in
  let ss := (off mod 3600) mod 60 in
  let s := sign +:+ fmt_d 2 hh +:+ ":" +:+ fmt_d 2 mm in
  if ss =? 0 then s else s +:+ ":" +:+ fmt_d 2 ss.

Definition isoformat (d : datetime) : string :=
  fmt_d 4 (dt_year d) +:+ "-" +:+ fmt_d 2 (dt_month d) +:+ "-"
  +:+ fmt_d 2 (dt_day d) +:+ "T"
  +:+ _format_time (dt_hour d) (dt_minute d) (dt_second d) (dt_microsecond d).

Definition aware_isoformat (a : aware) : string :=
  isoformat (aw_wall a) +:+ _format_offset (aw_utcoffset a).

(** *** [datetime.strptime(data_string, '%Y-%m-%d %H:%M')]

    [_strptime] turns the format into the regular expression
    [(\d\d\d\d)-(1[0-2]|0[1-9]|[1-9])-(3[01]|[12]\d|0[1-9]|[1-9]| [1-9])\s+(2[0-3]|[0-1]\d|\d):([0-5]\d|\d)]
    and matches it at the start of the input.  A parser returns its
    candidate matches in the order the backtracking engine tries them, so
    the head of the list is the match the engine reports.

    The model reads ASCII text: a string is a list of characters below
    128, where [\d] is one of [0-9] and [\s] one of the characters 9-13
    and 28-32.  Python's [\d] and [\s] also take the decimal digits and
    white space beyond ASCII; on a string that holds such a character
    this parser says nothing about the program, and the statements below
    that depend on a string being refused ask for [is_ascii]. *)

Module Strptime.

Abbreviation ascii := Ascii.ascii.

Definition parser (A : Type) := list ascii -> list (A * list ascii).

Definition code (c : ascii) : Z := Z.of_N (Ascii.N_of_ascii c).

Definition between (lo hi : Z) (c : ascii) : bool :=
  (lo <=? code c) && (code c <=? hi).

Definition digit_value (c : ascii) : Z := code c - 48.

Definition is_space (c : ascii) : bool := between 9 13 c || between 28 32 c.

(** The strings the parser models: every character is below 128. *)
Definition is_ascii (data_string : string) : bool :=
  forallb (fun c => code c <? 128) (String.list_ascii_of_string data_string).

Definition pure {A} (a : A) : parser A := fun s => [(a, s)].

Definition andthen {A B} (p : parser A) (k : A -> parser B) : parser B :=
  fun s => concat (map (fun '(a, rest) => k a rest) (p s)).

Definition orelse {A} (p q : parser A) : parser A := fun s => p s ++ q s.

(** One character in the class [lo-hi], read as a digit. *)
Definition cls (lo hi : Z) : parser Z :=
  fun s =>
    match s with
    | c :: rest => if between lo hi c then [(digit_value c, rest)] else []
    | [] => []
    end.

Definition lit (x : Z) : parser unit :=
  fun s =>
    match s with
    | c :: rest => if code c =? x then [(tt, rest)] else []
    | [] => []
    end.

(** Two characters [a][b], read as a two-digit number. *)
Definition two (a b : parser Z) : parser Z :=
  andthen a (fun x => andthen b (fun y => pure (10 * x + y))).

Definition d0_9 := cls 48 57.
Definition d1_9 := cls 49 57.

Definition re_Y : parser Z :=
  andthen (two d0_9 d0_9) (fun hi => andthen (two d0_9 d0_9) (fun lo =>
  pure (100 * hi + lo))).

Definition re_m : parser Z :=
  orelse (two (cls 49 49) (cls 48 50))
  (orelse (two (cls 48 48) d1_9) d1_9).

Definition re_d : parser Z :=
  orelse (two (cls 51 51) (cls 48 49))
  (orelse (two (cls 49 50) d0_9)
  (orelse (two (cls 48 48) d1_9)
  (orelse d1_9
          (andthen (lit 32) (fun _ => d1_9))))).

Definition re_H : parser Z :=
  orelse (two (cls 50 50) (cls 48 51))
  (orelse (two (cls 48 49) d0_9) d0_9).

Definition re_M : parser Z :=
  orelse (two (cls 48 53) d0_9) d0_9.

(** [\s+] is greedy: the longest run first, then shorter ones. *)
Fixpoint re_spaces (s : list ascii) : list (unit * list ascii) :=
  match s with
  | c :: rest => if is_space c then re_spaces rest ++ [(tt, rest)] else []
  | [] => []
  end.

Definition format_regex : parser (Z * Z * Z * Z * Z) :=
  andthen re_Y (fun Y => andthen (lit 45) (fun _ =>
  andthen re_m (fun m => andthen (lit 45) (fun _ =>
  andthen re_d (fun d => andthen re_spaces (fun _ =>
  andthen re_H (fun H => andthen (lit 58) (fun _ =>
  andthen re_M (fun M => pure (Y, m, d, H, M)))))))))).

Definition strptime (data_string : string) : result datetime :=
  match format_regex (String.list_ascii_of_string data_string) with
  | [] => Raise ValueError
  | ((Y, m, d, H, M), rest) :: _ =>
      match rest with
      | _ :: _ => Raise ValueError
      | [] =>
          (date <-? datetime_ymd Y m d;
           Return (mk_datetime Y m d H M 0 0))%result
      end
  end.

End Strptime.

(** ** Data exchanged with the calendar service *)

(** A cell is a [str] or [None]. *)
Definition cell := option string.

Definition str (c : cell) : string :=
  match c with
  | Some s => s
  | None => "None"
  end.

(** The ['start'] object of an event; either key may be absent. *)
Record start_dict := mk_start {
  sd_dateTime : option string;
  sd_date : option string
}.

(** An event resource as returned by the service.  A field is [None]
    when the key is absent from the dictionary. *)
Record event := mk_event {
  e_start : option start_dict;
  e_id : option string;
  e_summary : option string;
  e_htmlLink : option string
}.

Record time_dict := mk_time {
  td_dateTime : string;
  td_timeZone : string
}.

(** The body [add_event] sends. *)
Record event_body := mk_body {
  b_summary : string;
  b_location : string;
  b_description : string;
  b_start : time_dict;
  b_end : time_dict;
  b_attendees : list string
}.

(** Keyword arguments of [events().list]. *)
Record list_request := mk_list_request {
  calendarId : string;
  timeMin : string;
  timeMax : option string;
  maxResults : option Z;
  singleEvents : bool;
  orderBy : string
}.

Record list_response := mk_list_response {
  items : option (list event)
}.

Record credentials := mk_credentials {
  valid : bool;
  expired : bool;
  refresh_token : bool
}.

(** ** The world outside the program *)

Record world := mk_world {
  (** [datetime.utcnow()] *)
  utcnow : datetime;
  (** the local time zone of the platform: [tm_gmtoff] of
      [time.localtime(timestamp)], the offset from UTC in seconds that is
      in force at a POSIX timestamp, or the exception of the lookup *)
  local_timezone : Z -> result Z;
  (** [token.json]: absent, unreadable, or holding credentials *)
  token_json : option (result credentials);
  (** [creds.refresh(Request())] *)
  refresh : result unit;
  (** [InstalledAppFlow ... run_local_server(port=0)] *)
  run_local_server : result unit;
  (** writing [token.json] *)
  token_write : result unit;
  (** [build('calendar', 'v3', credentials=creds)] *)
  build : result unit;
  list_execute : list_request -> result list_response;
  insert_execute : event_body -> result event;
  get_execute : string -> result event;
  delete_execute : string -> result unit;
  (** [click.confirm(prompt)] *)
  confirm : string -> result bool;
  (** the text [PrettyTable] renders for field names and rows *)
  get_string : list cell -> list (list cell) -> string
}.

(** ** Observable events *)

Inductive io :=
| Stdout (text : string)
| TokenRead
| TokenRefresh
| Consent
| TokenWrite
| Build
| EventsList (req : list_request)
| EventsInsert (body : event_body)
| EventsGet (eventId : string)
| EventsDelete (eventId : string)
| Confirm (prompt : string) (answer : result bool).

(** Calls that leave the machine. *)
Definition is_network_call (e : io) : bool :=
  match e with
  | TokenRefresh | Consent | Build
  | EventsList _ | EventsInsert _ | EventsGet _ | EventsDelete _ => true
  | Stdout _ | TokenRead | TokenWrite | Confirm _ _ => false
  end.

Definition is_print (e : io) : bool :=
  match e with
  | Stdout _ => true
  | _ => false
  end.

(** ** The object store and the command monad

    Lists are mutable objects: a variable holds a reference into the
    store, and two holders of the same reference see each other's
    updates. *)

Definition ref := nat.

Record store := mk_store {
  objects : gmap nat (list (list cell));
  next_ref : nat
}.

Definition empty_store : store := mk_store ∅ 0%nat.

Definition M (A : Type) : Type := store -> store * list io * result A.

Global Instance M_ret : MRet M := fun A a σ => (σ, [], Return a).

Global Instance M_bind : MBind M := fun A B k m σ =>
  match m σ with
  | (σ1, t1, Return a) =>
      match k a σ1 with
      | (σ2, t2, r) => (σ2, t1 ++ t2, r)
      end
  | (σ1, t1, Raise e) => (σ1, t1, Raise e)
  end.

Global Instance result_ret : MRet result := fun A a => Return a.
Global Instance result_bind : MBind result := fun A B k r => rbind r k.

Definition raise {A} (e : exn) : M A := fun σ => (σ, [], Raise e).

Definition lift {A} (r : result A) : M A := fun σ => (σ, [], r).

(** An interaction with the world: the event is recorded and the world's
    answer is returned or raised. *)
Definition call {A} (e : io) (r : result A) : M A := fun σ => (σ, [e], r).

Definition print (text : string) : M unit := call (Stdout text) (Return tt).

(** [try: body except HttpError as error: handler] *)
Definition try_except_HttpError {A} (body : M A)
    (handler : Z -> string -> M A) : M A :=
  fun σ =>
    match body σ with
    | (σ1, t1, Raise (HttpError status text)) =>
        match handler status text σ1 with
        | (σ2, t2, r) => (σ2, t1 ++ t2, r)
        end
    | other => other
    end.

(** [[...]] builds a new list object. *)
Definition new_list (elems : list (list cell)) : M ref :=
  fun σ =>
    let l := next_ref σ in
    (mk_store (<[l := elems]> (objects σ)) (S l), [], Return l).

Definition read_list (l : ref) : M (list (list cell)) :=
  fun σ =>
    match objects σ !! l with
    | Some elems => (σ, [], Return elems)
    | None => (σ, [], Raise (OtherError "TypeError"))
    end.

(** [l.insert(0, x)] updates the object in place. *)
Definition list_insert_0 (l : ref) (x : list cell) : M unit :=
  fun σ =>
    match objects σ !! l with
    | Some elems =>
        (mk_store (<[l := x :: elems]> (objects σ)) (next_ref σ), [], Return tt)
    | None => (σ, [], Raise (OtherError "TypeError"))
    end.

(** ** The table library: the checks of [PrettyTable] *)

Record table := mk_table {
  field_names : list cell;
  rows : list (list cell)
}.

(** [PrettyTable(field_names)]: field names must be unique. *)
Definition PrettyTable (names : list cell) : result table :=
  if bool_decide (NoDup names) then Return (mk_table names [])
  else Raise ValueError.

(** [add_row]: a row must have as many values as there are field names. *)
Definition add_row (t : table) (row : list cell) : result table :=
  if negb (Nat.eqb (length (field_names t)) 0)
     && negb (Nat.eqb (length row) (length (field_names t)))
  then Raise ValueError
  else Return (mk_table (field_names t) (rows t ++ [row])).

Fixpoint add_rows (t : table) (rs : list (list cell)) : result table :=
  match rs with
  | [] => Return t
  | row :: rest => rbind (add_row t row) (fun t' => add_rows t' rest)
  end.

(** ** The program *)

Inductive service := Service.

Definition NL : string := String (Ascii.ascii_of_nat 10) EmptyString.

Section Program.

Context (w : world).

(** [local(u)]: the local wall clock at the instant [u], both counted in
    seconds like [utc_to_seconds].  The platform breaks the instant down
    into the calendar fields of [u + tm_gmtoff], and [utc_to_seconds]
    refuses a year outside [MINYEAR .. MAXYEAR]. *)
Definition local (u : Z) : result Z :=
  (gmtoff <-? local_timezone w (u - epoch);
   let lt := u + gmtoff in
   let '(year, month, day) := _ord2ymd (lt / 86400) in
   let s := lt mod 86400 in
   utc_to_seconds year month day (s / 3600) ((s mod 3600) / 60)
     ((s mod 3600) mod 60))%result.

(** [local_to_seconds] with [fold = 0]: solve [t = local(u)] for [u].
    The first guess uses the offset in force at [t] read as UTC; a second
    offset is looked for a day earlier, or taken from the failed guess.
    When neither offset gives a solution the wall time is in a gap and
    the later of the two guesses is returned. *)
Definition local_to_seconds (d : datetime) : result Z :=
  (t <-? utc_to_seconds (dt_year d) (dt_month d) (dt_day d)
         (dt_hour d) (dt_minute d) (dt_second d);
   lt <-? local t;
   let a := lt - t in
   let u1 := t - a in
   t1 <-? local u1;
   let other b :=
     let u2 := t - b in
     (t2 <-? local u2;
      if t2 =? t then Return u2
      else if t1 =? t then Return u1
      else Return (Z.max u1 u2)) in
   if t1 =? t then
     let u2 := u1 - max_fold_seconds in
     lt <-? local u2;
     let b := lt - u2 in
     if a =? b then Return u1 else other b
   else other (t1 - u1))%result.

(** [local_timezone_from_timestamp]: the fixed-offset [timezone] of the
    offset in force at a timestamp.  A [timezone] offset must lie strictly
    between -24h and 24h. *)
Definition local_timezone_from_timestamp (timestamp : Z) : result Z :=
  (gmtoff <-? local_timezone w timestamp;
   if negb ((-86400 <? gmtoff) && (gmtoff <? 86400)) then Raise ValueError
   else Return gmtoff)%result.

(** [local_timezone_from_local]: the time zone of a naive value, read as
    local time. *)
Definition local_timezone_from_local (d : datetime) : result Z :=
  (seconds <-? local_to_seconds d;
   local_timezone_from_timestamp (seconds - epoch))%result.

(** [local_timezone(utc_time)]: the time zone at a UTC value;
    [(utc_time - Epoch) // timedelta(seconds=1)] is the timestamp. *)
Definition local_timezone_of_utc (utc_time : datetime) : result Z :=
  local_timezone_from_timestamp (wall_us utc_time / US_PER_SECOND - epoch).

(** [naive.astimezone()]: the value is read as local time and taken to
    UTC with the offset of [local_timezone_from_local]; the time zone is
    then looked up again at that UTC value, and [timezone.fromutc] adds
    its offset.  The two offsets differ when the wall time falls into a
    gap of the local clock. *)
Definition astimezone (d : datetime) : result aware :=
  (off <-? local_timezone_from_local d;
   utc <-? datetime_sub d (timedelta_seconds off);
   off <-? local_timezone_of_utc utc;
   local <-? datetime_add utc (timedelta_seconds off);
   Return (mk_aware local off))%result.

(** A missing or invalid token is refreshed when it is expired and has a
    refresh token; otherwise the consent flow runs and its token is
    written to [token.json].  An [HttpError] of [build] is printed and the
    function ends without a [return], that is with [None]. *)
Definition _create_service : M (option service) :=
  creds ← (match token_json w with
           | Some loaded => c ← call TokenRead loaded; mret (Some c)
           | None => mret None
           end);
  (if match creds with Some c => negb (valid c) | None => true end then
     if match creds with
        | Some c => expired c && refresh_token c
        | None => false
        end
     then call TokenRefresh (refresh w)
     else
       call Consent (run_local_server w);;
       call TokenWrite (token_write w)
   else mret tt);;
  try_except_HttpError
    (call Build (build w);; mret (Some Service))
    (fun status error =>
       print ("An error occurred: " +:+ error);;
       mret None).

(** [service.events()] *)
Definition events (s : option service) : M service :=
  match s with
  | Some s => mret s
  | None => raise AttributeError
  end.

(** [d[key]] on a dictionary. *)
Definition subscript {A} (field : option A) (key : string) : result A :=
  match field with
  | Some v => Return v
  | None => Raise (KeyError key)
  end.

(** [event['start'].get('dateTime', event['start'].get('date'))] *)
Definition event_start (e : event) : result cell :=
  (start <-? subscript (e_start e) "start";
   Return (match sd_dateTime start with
           | Some dateTime => Some dateTime
           | None => sd_date start
           end))%result.

(** One element of the list comprehension: [(start, id, summary)]. *)
Definition event_row (e : event) : result (list cell) :=
  (start <-? event_start e;
   id <-? subscript (e_id e) "id";
   summary <-? subscript (e_summary e) "summary";
   Return [start; Some id; Some summary])%result.

Definition header : list cell := [Some "start"; Some "id"; Some "title"].

(** The header is inserted into the list the caller passed; the table is
    then built from [item_list[0]] and [item_list[1:]]. *)
Definition _pretty_print_table (item_list : ref) : M unit :=
  list_insert_0 item_list header;;
  elems ← read_list item_list;
  match elems with
  | [] => raise (OtherError "IndexError")
  | first :: rest =>
      t ← lift (PrettyTable first);
      t ← lift (add_rows t rest);
      print (get_string w (field_names t) (rows t))
  end.

Definition upcoming_request (num : Z) : list_request :=
  let now := isoformat (utcnow w) +:+ "Z" in
  mk_list_request "primary" now None (Some num) true "startTime".

(** Lines 69-76 and 106-113, the same in both list commands: an empty
    result is reported, any other is turned into rows and printed. *)
Definition show_events (evs : list event) : M unit :=
  match evs with
  | [] => print "No upcoming events found."
  | _ =>
      rows ← lift (mapM event_row evs);
      event_list ← new_list rows;
      _pretty_print_table event_list
  end.

Definition list_upcoming_events (num : Z) : M unit :=
  service ← _create_service;
  try_except_HttpError
    (let req := upcoming_request num in
     print ("Getting the upcoming " +:+ pretty num +:+ " events");;
     _ ← events service;
     events_result ← call (EventsList req) (list_execute w req);
     show_events (default [] (items events_result)))
    (fun status error => print ("An error occurred: " +:+ error)).

Record DateRange := mk_range {
  start_date : aware;
  end_date : aware
}.

(** Lines 91-99: the bounds of the month query. *)
Definition month_range (year month : Z) : result DateRange :=
  (start_date <-? rbind (datetime_ymd year month 1) astimezone;
   let '(year, month) :=
     if month <? 12 then (year, month + 1) else (year + 1, 1) in
   first <-? rbind (datetime_ymd year month 1) astimezone;
   end_date <-? aware_sub first (timedelta_milliseconds 1);
   Return (mk_range start_date end_date))%result.

Definition month_request (r : DateRange) : list_request :=
  mk_list_request "primary" (aware_isoformat (start_date r))
    (Some (aware_isoformat (end_date r))) None true "startTime".

(** The assertion on the month comes before the service is requested. *)
Definition list_events_for_month (year month : Z) : M unit :=
  if negb ((1 <=? month) && (month <=? 12)) then raise AssertionError
  else
    service ← _create_service;
    try_except_HttpError
      (r ← lift (month_range year month);
       print ("Getting the events in " +:+ NL +:+ "from:"
              +:+ aware_isoformat (start_date r) +:+ " " +:+ NL +:+ "  to:"
              +:+ aware_isoformat (end_date r));;
       _ ← events service;
       let req := month_request r in
       events_result ← call (EventsList req) (list_execute w req);
       show_events (default [] (items events_result)))
      (fun status error => print ("An error occurred: " +:+ error)).

(** The service is requested first, the two dates are parsed next. *)
Definition add_event (title start_datetime end_datetime timezone
                      location description : string) : M unit :=
  service ← _create_service;
  start ← lift (Strptime.strptime start_datetime);
  end_ ← lift (Strptime.strptime end_datetime);
  let body :=
    mk_body title location description
      (mk_time (isoformat start) timezone)
      (mk_time (isoformat end_) timezone) [] in
  _ ← events service;
  created ← call (EventsInsert body) (insert_execute w body);
  print ("Event created successfully: " +:+ str (e_htmlLink created)).

(** The text both messages of [delete_event] embed. *)
Definition describe (e : event) : result string :=
  (start <-? event_start e;
   summary <-? subscript (e_summary e) "summary";
   Return (str start +:+ ": " +:+ summary))%result.

(** The record is fetched, the user is asked, and only a yes leads to
    the delete request. *)
Definition delete_event (id : string) : M unit :=
  service ← _create_service;
  _ ← events service;
  fetched ← call (EventsGet id) (get_execute w id);
  what ← lift (describe fetched);
  let prompt := "Do you want to delete this event: " +:+ what +:+ "?" in
  let answer := confirm w prompt in
  yes ← call (Confirm prompt answer) answer;
  if (yes : bool) then
    _ ← events service;
    call (EventsDelete id) (delete_execute w id);;
    what ← lift (describe fetched);
    print ("Event has been deleted successfully: " +:+ what)
  else print "You did not delete the event.".

End Program.

(** * Specification vocabulary and sample worlds *)

(** ** Words of the specification *)

(** The first instant of a day on the wall clock. *)
Definition midnight (y m d : Z) : datetime := mk_datetime y m d 0 0 0 0.

(** The month after [(year, month)], as the specification words it. *)
Definition spec_next_month (year month : Z) : Z * Z :=
  if month =? 12 then (year + 1, 1) else (year, month + 1).

(** The last representable millisecond of a month. *)
Definition last_millisecond (y m : Z) : datetime :=
  mk_datetime y m (_days_in_month y m) 23 59 59 999000.

(** The POSIX timestamp of a wall time read as UTC. *)
Definition timestamp (d : datetime) : Z := wall_us d / US_PER_SECOND - epoch.

(** The local clock is steady around a wall time [d]: the offset [off]
    from UTC is in force from one day before to one day after the instant
    at which a clock at that offset shows [d]. *)
Definition steady (w : world) (d : datetime) (off : Z) : Prop :=
  forall u,
    timestamp d - off - 86400 <= u <= timestamp d - off + 86400 ->
    local_timezone w u = Return off.

(** ** Checks on the calendar *)

Definition triple_eqb (a b : Z * Z * Z) : bool :=
  let '(a1, a2, a3) := a in
  let '(b1, b2, b3) := b in
  (a1 =? b1) && (a2 =? b2) && (a3 =? b3).

(** The month before [(y, m)]. *)
Definition previous_month (y m : Z) : Z * Z :=
  if m =? 1 then (y - 1, 12) else (y, m - 1).

Fixpoint zrange (lo : Z) (n : nat) : list Z :=
  match n with
  | O => []
  | S k => lo :: zrange (lo + 1) k
  end.

(** What the month query needs to know about one month: the first day
    and the last day convert back and forth, and the day after the last
    is the first day of the next month. *)
Definition cycle_facts (y m : Z) : bool :=
  let dim := _days_in_month y m in
  let '(ny, nm) := spec_next_month y m in
  (1 <=? dim)
  && triple_eqb (_ord2ymd (_ymd2ord y m 1)) (y, m, 1)
  && triple_eqb (_ord2ymd (_ymd2ord y m dim)) (y, m, dim)
  && (_ymd2ord ny nm 1 - 1 =? _ymd2ord y m dim).

(** The specification's [ValidationError]: the failed assertion on the
    month, and the [ValueError] of [datetime] and [strptime]. *)
Definition is_validation_error (e : exn) : bool :=
  match e with
  | AssertionError | ValueError => true
  | _ => false
  end.

(** A row of the table: (start, id, title). *)
Definition triple (r : list cell) : Prop := length r = 3%nat.

(** Events of the credential bootstrap and of service construction. *)
Definition is_setup (e : io) : bool :=
  match e with
  | TokenRead | TokenRefresh | Consent | TokenWrite | Build | Stdout _ => true
  | _ => false
  end.

(** What [delete_event] does after the service has been requested. *)
Inductive delete_run (id : string) : list io -> result unit -> Prop :=
| run_no_service e :
    delete_run id [] (Raise e)
| run_fetch_failed e :
    delete_run id [EventsGet id] (Raise e)
| run_aborted p e :
    delete_run id [EventsGet id; Confirm p (Raise e)] (Raise e)
| run_declined p :
    delete_run id
      [EventsGet id; Confirm p (Return false);
       Stdout "You did not delete the event."] (Return tt)
| run_delete_failed p e :
    delete_run id
      [EventsGet id; Confirm p (Return true); EventsDelete id] (Raise e)
| run_deleted p text :
    delete_run id
      [EventsGet id; Confirm p (Return true); EventsDelete id; Stdout text]
      (Return tt).

(** The prompt [delete_event] shows for a fetched record. *)
Definition delete_prompt (what : string) : string :=
  "Do you want to delete this event: " +:+ what +:+ "?".

(** What is reported of a fetched record: its start, the ['dateTime'] if
    the record has one and the ['date'] otherwise, then its title. *)
Definition reported (start : start_dict) (summary : string) : string :=
  str (match sd_dateTime start with
       | Some dateTime => Some dateTime
       | None => sd_date start
       end)
  +:+ ": " +:+ summary.

(** The specification's [NotFoundError]: the service answers 404. *)
Definition is_not_found (e : exn) : bool :=
  match e with
  | HttpError 404 _ => true
  | _ => false
  end.

(** The first line each list command prints. *)
Definition upcoming_banner (num : Z) : string :=
  "Getting the upcoming " +:+ pretty num +:+ " events".

Definition month_banner (r : DateRange) : string :=
  "Getting the events in " +:+ NL +:+ "from:"
  +:+ aware_isoformat (start_date r) +:+ " " +:+ NL +:+ "  to:"
  +:+ aware_isoformat (end_date r).

(** ** Sample worlds *)

Definition plain_row (r : list cell) : string :=
  foldr (fun c acc => "| " +:+ str c +:+ " " +:+ acc) "|" r.

Definition plain_table (names : list cell) (rs : list (list cell)) : string :=
  foldr (fun r acc => acc +:+ NL +:+ plain_row r) (plain_row names) (rev rs).

(** A machine on UTC with a valid token and an empty calendar. *)
Definition utc_world : world :=
  {| utcnow := mk_datetime 2022 10 10 12 0 0 0;
     local_timezone := fun _ => Return 0;
     token_json := Some (Return (mk_credentials true false true));
     refresh := Return tt;
     run_local_server := Return tt;
     token_write := Return tt;
     build := Return tt;
     list_execute := fun _ => Return (mk_list_response None);
     insert_execute := fun b =>
       Return (mk_event (Some (mk_start (Some (td_dateTime (b_start b))) None))
                 (Some "e1") (Some (b_summary b)) (Some "https://calendar.example/e1"));
     get_execute := fun _ => Raise (HttpError 404 "Not Found");
     delete_execute := fun _ => Return tt;
     confirm := fun _ => Return false;
     get_string := plain_table |}.

Definition with_token (tok : option (result credentials)) (w : world) : world :=
  mk_world (utcnow w) (local_timezone w) tok (refresh w) (run_local_server w)
    (token_write w) (build w) (list_execute w) (insert_execute w)
    (get_execute w) (delete_execute w) (confirm w) (get_string w).

Definition with_build (r : result unit) (w : world) : world :=
  mk_world (utcnow w) (local_timezone w) (token_json w) (refresh w)
    (run_local_server w) (token_write w) r (list_execute w) (insert_execute w)
    (get_execute w) (delete_execute w) (confirm w) (get_string w).

Definition with_list (r : result list_response) (w : world) : world :=
  mk_world (utcnow w) (local_timezone w) (token_json w) (refresh w)
    (run_local_server w) (token_write w) (build w) (fun _ => r)
    (insert_execute w) (get_execute w) (delete_execute w) (confirm w)
    (get_string w).

Definition with_insert (r : result event) (w : world) : world :=
  mk_world (utcnow w) (local_timezone w) (token_json w) (refresh w)
    (run_local_server w) (token_write w) (build w) (list_execute w)
    (fun _ => r) (get_execute w) (delete_execute w) (confirm w) (get_string w).

Definition with_get (r : result event) (w : world) : world :=
  mk_world (utcnow w) (local_timezone w) (token_json w) (refresh w)
    (run_local_server w) (token_write w) (build w) (list_execute w)
    (insert_execute w) (fun _ => r) (delete_execute w) (confirm w)
    (get_string w).

Definition with_confirm (r : result bool) (w : world) : world :=
  mk_world (utcnow w) (local_timezone w) (token_json w) (refresh w)
    (run_local_server w) (token_write w) (build w) (list_execute w)
    (insert_execute w) (get_execute w) (delete_execute w) (fun _ => r)
    (get_string w).

Definition with_zone (zone : Z -> result Z) (w : world) : world :=
  mk_world (utcnow w) zone (token_json w) (refresh w) (run_local_server w)
    (token_write w) (build w) (list_execute w) (insert_execute w)
    (get_execute w) (delete_execute w) (confirm w) (get_string w).

(** Africa/Cairo in the summer of 2014: UTC+2 until 31 July 22:00 UTC
    (timestamp 1406844000), when the clocks went from midnight to 01:00,
    and UTC+3 from then on.  Local midnight of 1 August does not exist. *)
Definition cairo_2014 (timestamp : Z) : result Z :=
  Return (if timestamp <? 1406844000 then 7200 else 10800).

Definition dinner : event :=
  mk_event (Some (mk_start (Some "2022-10-10T18:00:00+02:00") None))
    (Some "e1") (Some "Dinner") None.

(** A store whose only object is the list [rs], at reference 0. *)
Definition one_list (rs : list (list cell)) : store :=
  mk_store {[ 0%nat := rs ]} 1%nat.

(** A transient failure of the service. *)
Definition unavailable : exn := HttpError 503 "Service Unavailable".

(** The body [add_event] builds for a dinner on 2022-10-10. *)
Definition dinner_body : event_body :=
  mk_body "Dinner" "Unknown" "No description"
    (mk_time "2022-10-10T18:00:00" "UTC")
    (mk_time "2022-10-10T19:00:00" "UTC") [].

(** ** Words and samples for the further properties *)

Definition with_refresh (r : result unit) (w : world) : world :=
  mk_world (utcnow w) (local_timezone w) (token_json w) r
    (run_local_server w) (token_write w) (build w) (list_execute w)
    (insert_execute w) (get_execute w) (delete_execute w) (confirm w)
    (get_string w).

Definition with_delete (r : result unit) (w : world) : world :=
  mk_world (utcnow w) (local_timezone w) (token_json w) (refresh w)
    (run_local_server w) (token_write w) (build w) (list_execute w)
    (insert_execute w) (get_execute w) (fun _ => r) (confirm w)
    (get_string w).

(** A token that has expired and can be refreshed. *)
Definition expired_token : option (result credentials) :=
  Some (Return (mk_credentials false true true)).

(** The first key [event_row] finds missing in an event, in the order it
    reads them; [None] when the event has all three. *)
Definition missing_key (e : event) : option string :=
  match e_start e, e_id e, e_summary e with
  | None, _, _ => Some "start"
  | Some _, None, _ => Some "id"
  | Some _, Some _, None => Some "summary"
  | Some _, Some _, Some _ => None
  end.

(** The row shown for an event: its [dateTime], or else its [date], or
    else [None]; then its id and its summary. *)
Definition row_cells (e : event) : list cell :=
  [ match e_start e with
    | Some start =>
        match sd_dateTime start with
        | Some dateTime => Some dateTime
        | None => sd_date start
        end
    | None => None
    end;
    e_id e; e_summary e ].

Definition is_list_request (e : io) : bool :=
  match e with
  | EventsList _ => true
  | _ => false
  end.

(** The store after one more list object has been created. *)
Definition store_with_new (σ : store) (elems : list (list cell)) : store :=
  mk_store (<[next_ref σ := elems]> (objects σ)) (S (next_ref σ)).

(** What a list command may do: set up the service, print, and send list
    requests. *)
Definition is_listing (e : io) : bool := is_setup e || is_list_request e.

Definition list_requests (t : list io) : nat :=
  length (List.filter is_list_request t).

(** An all-day event without a title: no ['summary'] key. *)
Definition untitled : event :=
  mk_event (Some (mk_start None (Some "2022-10-11"))) (Some "e2") None None.

(** A failure below HTTP, such as a dropped connection. *)
Definition connection_lost : exn := OtherError "ConnectionError".

(** The character of a decimal digit. *)
Definition digit_char (k : Z) : Ascii.ascii :=
  Ascii.ascii_of_N (Z.to_N (48 + k)).

Definition two_digits (n : Z) : list Ascii.ascii :=
  [digit_char (n / 10); digit_char (n mod 10)].

Definition four_digits (n : Z) : list Ascii.ascii :=
  [digit_char (n / 1000); digit_char ((n / 100) mod 10);
   digit_char ((n / 10) mod 10); digit_char (n mod 10)].

Definition dash : Ascii.ascii := Ascii.ascii_of_nat 45.
Definition space : Ascii.ascii := Ascii.ascii_of_nat 32.
Definition colon : Ascii.ascii := Ascii.ascii_of_nat 58.

(** The zero-padded form [YYYY-MM-DD HH:MM] of a date and time. *)
Definition canonical (y m d H M : Z) : string :=
  fmt_d 4 y +:+ "-" +:+ fmt_d 2 m +:+ "-" +:+ fmt_d 2 d +:+ " "
  +:+ fmt_d 2 H +:+ ":" +:+ fmt_d 2 M.

(** Its ISO 8601 expansion to seconds. *)
Definition iso_expansion (y m d H M : Z) : string :=
  fmt_d 4 y +:+ "-" +:+ fmt_d 2 m +:+ "-" +:+ fmt_d 2 d +:+ "T"
  +:+ fmt_d 2 H +:+ ":" +:+ fmt_d 2 M +:+ ":00".

(** Every candidate match of a parser has a value in [P]. *)
Definition yields {A} (P : A -> Prop) (p : Strptime.parser A) : Prop :=
  forall s, Forall (fun c => P (fst c)) (p s).

(** A parser whose first candidate on [s] is [(a, rest)]. *)
Definition first_match {A} (p : Strptime.parser A) s (a : A) rest : Prop :=
  exists more, p s = (a, rest) :: more.

Definition ascii_list_eqb (l1 l2 : list Ascii.ascii) : bool :=
  String.eqb (String.string_of_list_ascii l1) (String.string_of_list_ascii l2).

(** Fields of a date and time to the minute that [datetime] accepts. *)
Definition valid_minute (y m d H M : Z) : Prop :=
  1 <= y <= 9999 /\ 1 <= m <= 12 /\ 1 <= d <= _days_in_month y m
  /\ 0 <= H <= 23 /\ 0 <= M <= 59.

(** The tail of [_ord2ymd]: month and day from the day of the year. *)
Definition month_day (leapyear : bool) (n : Z) : Z * Z :=
  let month := Z.shiftr (n + 50) 5 in
  let preceding :=
    index _DAYS_BEFORE_MONTH month
    + (if (2 <? month) && leapyear then 1 else 0) in
  if n <? preceding then
    let month := month - 1 in
    let preceding :=
      preceding
      - (index _DAYS_IN_MONTH month
         + (if (month =? 2) && leapyear then 1 else 0)) in
    (month, n - preceding + 1)
  else (month, n - preceding + 1).

(** What a day of the year has to satisfy: the month exists and the days
    before it, plus the day, count up to the day of the year. *)
Definition month_day_facts (leapyear : bool) (n : Z) : bool :=
  let '(m, d) := month_day leapyear n in
  (1 <=? m) && (m <=? 12) && (1 <=? d)
  && (index _DAYS_BEFORE_MONTH m + (if (2 <? m) && leapyear then 1 else 0) + d
      =? n + 1).

(** What the year of a 400-year cycle has to satisfy, the year being
    counted in centuries [b], four-year cycles [c] and years [e]. *)
Definition year_facts (b c e : Z) : bool :=
  let year := 100 * b + 4 * c + e + 1 in
  let days := 36524 * b + 1461 * c + 365 * e in
  if (e =? 4) || (b =? 4) then
    if ((e =? 4) && (c <=? 23) && (b <=? 3)) || ((b =? 4) && (c =? 0) && (e =? 0))
    then _ymd2ord (year - 1) 12 31 =? days + 1
    else true
  else
    (_days_before_year year =? days)
    && Bool.eqb (_is_leap year) ((e =? 3) && (negb (c =? 24) || (b =? 3))).

(** * Verification *)

(** ** The library models on examples *)

Example strptime_ok :
  Strptime.strptime "2022-10-10 18:00" = Return (mk_datetime 2022 10 10 18 0 0 0).
Proof. reflexivity. Qed.

Example strptime_unpadded :
  Strptime.strptime "2022-1-5   7:5" = Return (mk_datetime 2022 1 5 7 5 0 0).
Proof. reflexivity. Qed.

Example strptime_bad_day : Strptime.strptime "2022-02-30 18:00" = Raise ValueError.
Proof. reflexivity. Qed.

Example strptime_trailing : Strptime.strptime "2022-10-10 18:005" = Raise ValueError.
Proof. reflexivity. Qed.

Example isoformat_example :
  aware_isoformat (mk_aware (mk_datetime 2022 2 28 23 59 59 999000) (-18000))
  = "2022-02-28T23:59:59.999000-05:00".
Proof. reflexivity. Qed.

(** ** Calendar facts

    Everything the month query needs from the calendar concerns the first
    and the last day of a month.  These facts are checked by evaluation
    for the 400 * 12 months of one Gregorian cycle and carried to every
    year by the period of the calendar. *)

Lemma triple_eqb_eq a b : triple_eqb a b = true -> a = b.
Proof.
  destruct a as [[a1 a2] a3], b as [[b1 b2] b3]; simpl.
  rewrite !andb_true_iff, !Z.eqb_eq. intros [[-> ->] ->]. reflexivity.
Qed.

Lemma forallb_zrange_nat (f : Z -> bool) n :
  forall lo, forallb f (zrange lo n) = true ->
  forall x, lo <= x < lo + Z.of_nat n -> f x = true.
Proof.
  induction n as [|n IH]; intros lo H x Hx.
  - lia.
  - simpl in H. apply andb_true_iff in H as [Hlo Hrest].
    destruct (Z.eq_dec lo x) as [->|Hne]; [assumption|].
    apply (IH (lo + 1)); [assumption | lia].
Qed.

Lemma forallb_zrange (f : Z -> bool) k lo :
  forallb f (zrange lo (Z.to_nat k)) = true ->
  forall x, lo <= x < lo + k -> f x = true.
Proof. intros H x Hx. apply (forallb_zrange_nat f _ lo H). lia. Qed.

Lemma cycle_checked :
  forallb (fun y => forallb (cycle_facts y) (zrange 1 (Z.to_nat 12)))
    (zrange 1 (Z.to_nat 400)) = true.
Proof. vm_compute. reflexivity. Qed.

Lemma cycle_facts_hold y m :
  1 <= y <= 400 -> 1 <= m <= 12 -> cycle_facts y m = true.
Proof.
  intros Hy Hm.
  pose proof (forallb_zrange _ _ _ cycle_checked y ltac:(lia)) as H.
  cbv beta in H.
  apply (forallb_zrange _ _ _ H). lia.
Qed.

(** The Gregorian calendar repeats every 400 years, that is every 146097
    days. *)
Lemma is_leap_shift y k : _is_leap (y + 400 * k) = _is_leap y.
Proof.
  unfold _is_leap.
  replace (y + 400 * k) with (y + (100 * k) * 4) at 1 by lia.
  replace (y + 400 * k) with (y + (4 * k) * 100) at 1 by lia.
  replace (y + 400 * k) with (y + k * 400) by lia.
  rewrite !Z.mod_add by lia. reflexivity.
Qed.

Lemma days_before_year_shift y k :
  _days_before_year (y + 400 * k) = _days_before_year y + 146097 * k.
Proof.
  unfold _days_before_year.
  replace (y + 400 * k - 1) with (y - 1 + (100 * k) * 4) at 2 by lia.
  replace (y + 400 * k - 1) with (y - 1 + (4 * k) * 100) at 2 by lia.
  replace (y + 400 * k - 1) with (y - 1 + k * 400) at 2 by lia.
  rewrite !Z.div_add by lia. lia.
Qed.

Lemma days_in_month_shift y m k :
  _days_in_month (y + 400 * k) m = _days_in_month y m.
Proof. unfold _days_in_month. rewrite is_leap_shift. reflexivity. Qed.

Lemma ymd2ord_shift y m d k :
  _ymd2ord (y + 400 * k) m d = _ymd2ord y m d + 146097 * k.
Proof.
  unfold _ymd2ord, _days_before_month.
  rewrite days_before_year_shift, is_leap_shift. lia.
Qed.

Lemma div_eucl_pair a b : Z.div_eucl a b = (a / b, a mod b).
Proof. unfold Z.div, Z.modulo. destruct (Z.div_eucl a b). reflexivity. Qed.

Lemma ord2ymd_shift n k :
  _ord2ymd (n + 146097 * k)
  = let '(y, m, d) := _ord2ymd n in (y + 400 * k, m, d).
Proof.
  unfold _ord2ymd, _DI400Y.
  rewrite (div_eucl_pair (n + 146097 * k - 1)), (div_eucl_pair (n - 1)).
  replace (n + 146097 * k - 1) with (n - 1 + k * 146097) by lia.
  rewrite Z.div_add, Z.mod_add by lia.
  destruct (Z.div_eucl ((n - 1) mod 146097) _DI100Y) as [n100 r100].
  destruct (Z.div_eucl r100 _DI4Y) as [n4 r4].
  destruct (Z.div_eucl r4 365) as [n1 r1].
  repeat match goal with
         | |- context [if ?b then _ else _] => destruct b
         end;
    f_equal; f_equal; lia.
Qed.

Lemma spec_next_month_shift y m k :
  spec_next_month (y + 400 * k) m
  = let '(ny, nm) := spec_next_month y m in (ny + 400 * k, nm).
Proof. unfold spec_next_month. destruct (m =? 12); f_equal; lia. Qed.

(** The facts of one cycle hold in every year. *)
Lemma month_shape y m :
  1 <= m <= 12 ->
  let '(ny, nm) := spec_next_month y m in
  1 <= _days_in_month y m
  /\ _ord2ymd (_ymd2ord y m 1) = (y, m, 1)
  /\ _ord2ymd (_ymd2ord y m (_days_in_month y m)) = (y, m, _days_in_month y m)
  /\ _ymd2ord ny nm 1 - 1 = _ymd2ord y m (_days_in_month y m).
Proof.
  intros Hm.
  set (y0 := 1 + (y - 1) mod 400). set (k := (y - 1) / 400).
  assert (Hy0 : 1 <= y0 <= 400)
    by (pose proof (Z.mod_pos_bound (y - 1) 400 ltac:(lia)); lia).
  assert (Hy : y = y0 + 400 * k)
    by (pose proof (Z.div_mod (y - 1) 400 ltac:(lia)); lia).
  rewrite Hy. clearbody y0 k. clear Hy y.
  pose proof (cycle_facts_hold y0 m Hy0 Hm) as F. unfold cycle_facts in F.
  rewrite spec_next_month_shift, days_in_month_shift.
  destruct (spec_next_month y0 m) as [ny nm].
  rewrite !andb_true_iff in F. destruct F as [[[Hdim H1] Hlast] Hnext].
  apply triple_eqb_eq in H1, Hlast.
  rewrite !ymd2ord_shift, !ord2ymd_shift, H1, Hlast.
  repeat split; lia.
Qed.

Lemma days_before_month_bounds y m :
  1 <= m <= 12 ->
  0 <= _days_before_month y m <= 335
  /\ (2 <= m -> 31 <= _days_before_month y m).
Proof.
  intros Hm. unfold _days_before_month.
  assert (Hcases : m = 1 \/ m = 2 \/ m = 3 \/ m = 4 \/ m = 5 \/ m = 6 \/ m = 7
                   \/ m = 8 \/ m = 9 \/ m = 10 \/ m = 11 \/ m = 12) by lia.
  destruct (_is_leap y);
    repeat (destruct Hcases as [->|Hcases]; [vm_compute; intuition discriminate|]);
    subst m; vm_compute; intuition discriminate.
Qed.

Lemma first_ordinal_bounds y m :
  1 <= y <= 9999 -> 1 <= m <= 12 ->
  1 <= _ymd2ord y m 1 <= _MAXORDINAL
  /\ ((y, m) <> (1, 1) -> 2 <= _ymd2ord y m 1).
Proof.
  intros Hy Hm.
  destruct (days_before_month_bounds y m Hm) as [Hdbm Hdbm2].
  unfold _ymd2ord, _days_before_year, _MAXORDINAL.
  pose proof (Z.div_mod (y - 1) 4 ltac:(lia)).
  pose proof (Z.mod_pos_bound (y - 1) 4 ltac:(lia)).
  pose proof (Z.div_mod (y - 1) 100 ltac:(lia)).
  pose proof (Z.mod_pos_bound (y - 1) 100 ltac:(lia)).
  pose proof (Z.div_mod (y - 1) 400 ltac:(lia)).
  pose proof (Z.mod_pos_bound (y - 1) 400 ltac:(lia)).
  split; [lia|].
  intros Hne.
  destruct (Z.eq_dec m 1) as [->|Hm1].
  - assert (2 <= y) by (destruct (Z.eq_dec y 1) as [->|]; [congruence | lia]).
    lia.
  - specialize (Hdbm2 ltac:(lia)). lia.
Qed.

(** ** Dates of the month query *)

Lemma fits_int_true n : -2147483648 <= n <= 2147483647 -> fits_int n = true.
Proof. intros H. unfold fits_int, INT_MIN, INT_MAX. apply andb_true_iff. lia. Qed.

Lemma datetime_ymd_valid y m :
  1 <= y <= 9999 -> 1 <= m <= 12 -> datetime_ymd y m 1 = Return (midnight y m 1).
Proof.
  intros Hy Hm. pose proof (month_shape y m Hm) as F.
  destruct (spec_next_month y m) as [ny nm]. destruct F as (Hdim & _).
  unfold datetime_ymd, MINYEAR, MAXYEAR.
  rewrite !fits_int_true by lia. cbn [andb negb].
  replace ((1 <=? y) && (y <=? 9999)) with true by (symmetry; apply andb_true_iff; lia).
  replace ((1 <=? m) && (m <=? 12)) with true by (symmetry; apply andb_true_iff; lia).
  replace ((1 <=? 1) && (1 <=? _days_in_month y m)) with true
    by (symmetry; apply andb_true_iff; lia).
  reflexivity.
Qed.

(** Normal form of a sum. *)
Lemma datetime_add_normal d delta days secs us :
  wall_us d + delta = days * US_PER_DAY + secs * US_PER_SECOND + us ->
  0 <= secs < 86400 -> 0 <= us < US_PER_SECOND ->
  0 < days <= _MAXORDINAL ->
  datetime_add d delta =
    Return (let '(y, m, dd) := _ord2ymd days in
            mk_datetime y m dd (secs / 3600) ((secs mod 3600) / 60)
              ((secs mod 3600) mod 60) us).
Proof.
  intros Hsum Hs Hus Hd. unfold datetime_add. rewrite Hsum.
  unfold US_PER_DAY, US_PER_SECOND in *.
  assert (Hdays : (days * (86400 * 1000000) + secs * 1000000 + us) / (86400 * 1000000) = days).
  { symmetry. apply (Z.div_unique _ _ _ (secs * 1000000 + us)); lia. }
  assert (Hrem : (days * (86400 * 1000000) + secs * 1000000 + us) mod (86400 * 1000000) = secs * 1000000 + us).
  { symmetry. apply (Z.mod_unique _ _ days); lia. }
  rewrite Hdays, Hrem.
  assert (Hsec : (secs * 1000000 + us) / 1000000 = secs).
  { symmetry. apply (Z.div_unique _ _ _ us); lia. }
  assert (Hmic : (secs * 1000000 + us) mod 1000000 = us).
  { symmetry. apply (Z.mod_unique _ _ secs); lia. }
  rewrite Hsec, Hmic.
  replace ((0 <? days) && (days <=? _MAXORDINAL)) with true
    by (symmetry; apply andb_true_iff; lia).
  destruct (_ord2ymd days) as [[y m] dd]. reflexivity.
Qed.

Lemma hms_recompose secs :
  (secs / 3600 * 3600 + secs mod 3600 / 60 * 60 + (secs mod 3600) mod 60) = secs.
Proof.
  pose proof (Z.div_mod secs 3600 ltac:(lia)).
  pose proof (Z.div_mod (secs mod 3600) 60 ltac:(lia)). lia.
Qed.

(** *** Ordinals and dates

    [_ymd2ord] undoes [_ord2ymd].  The year is checked on the 5 * 25 * 5
    positions of a 400-year cycle, the month and day on the days of a
    year, and the period of the calendar carries both to every ordinal. *)

Lemma month_day_checked :
  forallb (fun leap => forallb (month_day_facts leap) (zrange 0 (Z.to_nat 365)))
    [true; false] = true.
Proof. vm_compute. reflexivity. Qed.

Lemma year_checked :
  forallb (fun b => forallb (fun c => forallb (year_facts b c)
                                        (zrange 0 (Z.to_nat 5)))
                      (zrange 0 (Z.to_nat 25)))
    (zrange 0 (Z.to_nat 5)) = true.
Proof. vm_compute. reflexivity. Qed.

Lemma month_day_facts_hold leap n :
  0 <= n < 365 -> month_day_facts leap n = true.
Proof.
  intros Hn. pose proof month_day_checked as H. cbn [forallb] in H.
  apply andb_true_iff in H as [Ht H]. apply andb_true_iff in H as [Hf _].
  destruct leap; [apply (forallb_zrange _ _ _ Ht) | apply (forallb_zrange _ _ _ Hf)];
    lia.
Qed.

Lemma year_facts_hold b c e :
  0 <= b <= 4 -> 0 <= c <= 24 -> 0 <= e <= 4 -> year_facts b c e = true.
Proof.
  intros Hb Hc He.
  pose proof (forallb_zrange _ _ _ year_checked b ltac:(lia)) as H1.
  cbv beta in H1.
  pose proof (forallb_zrange _ _ _ H1 c ltac:(lia)) as H2. cbv beta in H2.
  apply (forallb_zrange _ _ _ H2). lia.
Qed.

Lemma ord2ymd_eq n :
  _ord2ymd n =
  let a := (n - 1) / 146097 in
  let r400 := (n - 1) mod 146097 in
  let b := r400 / 36524 in
  let r100 := r400 mod 36524 in
  let c := r100 / 1461 in
  let r4 := r100 mod 1461 in
  let e := r4 / 365 in
  let r1 := r4 mod 365 in
  let year := a * 400 + 1 + (b * 100 + c * 4 + e) in
  if (e =? 4) || (b =? 4) then (year - 1, 12, 31)
  else
    let '(m, d) := month_day ((e =? 3) && (negb (c =? 24) || (b =? 3))) r1 in
    (year, m, d).
Proof.
  unfold _ord2ymd, _DI400Y, _DI100Y, _DI4Y, month_day.
  rewrite !div_eucl_pair. cbv zeta.
  destruct ((_ =? 4) || (_ =? 4)); [reflexivity|].
  destruct (_ <? _); reflexivity.
Qed.

(** [_ymd2ord] undoes [_ord2ymd], for every ordinal. *)
Lemma ymd2ord_ord2ymd n :
  let '(y, m, d) := _ord2ymd n in _ymd2ord y m d = n.
Proof.
  rewrite ord2ymd_eq. cbv zeta.
  pose proof (Z.div_mod (n - 1) 146097 ltac:(lia)) as E400.
  pose proof (Z.mod_pos_bound (n - 1) 146097 ltac:(lia)) as B400.
  set (a := (n - 1) / 146097) in *. set (r400 := (n - 1) mod 146097) in *.
  pose proof (Z.div_mod r400 36524 ltac:(lia)) as E100.
  pose proof (Z.mod_pos_bound r400 36524 ltac:(lia)) as B100.
  set (b := r400 / 36524) in *. set (r100 := r400 mod 36524) in *.
  pose proof (Z.div_mod r100 1461 ltac:(lia)) as E4.
  pose proof (Z.mod_pos_bound r100 1461 ltac:(lia)) as B4.
  set (c := r100 / 1461) in *. set (r4 := r100 mod 1461) in *.
  pose proof (Z.div_mod r4 365 ltac:(lia)) as E1.
  pose proof (Z.mod_pos_bound r4 365 ltac:(lia)) as B1.
  set (e := r4 / 365) in *. set (r1 := r4 mod 365) in *.
  clearbody a r400 b r100 c r4 e r1.
  assert (Hb : 0 <= b <= 4) by lia.
  assert (Hc : 0 <= c <= 24) by lia.
  assert (He : 0 <= e <= 4) by lia.
  pose proof (year_facts_hold b c e Hb Hc He) as F. unfold year_facts in F.
  destruct ((e =? 4) || (b =? 4)) eqn:Especial.
  - replace (((e =? 4) && (c <=? 23) && (b <=? 3))
             || ((b =? 4) && (c =? 0) && (e =? 0))) with true in F.
    2:{ symmetry. apply orb_true_iff in Especial as [E|E];
          apply Z.eqb_eq in E; apply orb_true_iff; [left|right];
          rewrite !andb_true_iff, ?Z.eqb_eq, ?Z.leb_le; lia. }
    apply Z.eqb_eq in F.
    replace (a * 400 + 1 + (b * 100 + c * 4 + e) - 1)
      with (100 * b + 4 * c + e + 1 - 1 + 400 * a) by lia.
    rewrite ymd2ord_shift, F.
    apply orb_true_iff in Especial as [E|E]; apply Z.eqb_eq in E; lia.
  - apply orb_false_iff in Especial as [Ee Eb].
    apply Z.eqb_neq in Ee, Eb.
    apply andb_true_iff in F as [Fdays Fleap].
    apply Z.eqb_eq in Fdays. apply Bool.eqb_prop in Fleap.
    rewrite <- Fleap.
    pose proof (month_day_facts_hold (_is_leap (100 * b + 4 * c + e + 1)) r1
                  ltac:(lia)) as G.
    unfold month_day_facts in G.
    destruct (month_day _ r1) as [m d].
    rewrite !andb_true_iff in G. destruct G as [[[Hm1 Hm2] Hd] Hsum].
    apply Z.eqb_eq in Hsum.
    replace (a * 400 + 1 + (b * 100 + c * 4 + e))
      with (100 * b + 4 * c + e + 1 + 400 * a) by lia.
    rewrite ymd2ord_shift. unfold _ymd2ord, _days_before_month.
    rewrite Fdays. lia.
Qed.

(** The sum of a date and a duration is that far along the wall clock. *)
Lemma datetime_add_wall d delta d' :
  datetime_add d delta = Return d' -> wall_us d' = wall_us d + delta.
Proof.
  unfold datetime_add.
  destruct ((0 <? _) && (_ <=? _)); [|discriminate].
  pose proof (ymd2ord_ord2ymd ((wall_us d + delta) / US_PER_DAY)) as Hback.
  destruct (_ord2ymd _) as [[y m] dd].
  intros [= <-]. unfold wall_us at 1, toordinal.
  cbn [dt_year dt_month dt_day dt_hour dt_minute dt_second dt_microsecond].
  rewrite Hback. unfold US_PER_DAY, US_PER_SECOND.
  set (total := wall_us d + delta).
  pose proof (Z.div_mod total (86400 * 1000000) ltac:(lia)).
  set (rem := total mod (86400 * 1000000)) in *.
  pose proof (Z.div_mod rem 1000000 ltac:(lia)).
  pose proof (hms_recompose (rem / 1000000)).
  lia.
Qed.

Lemma first_ordinal y m :
  1 <= y <= 9999 -> 1 <= m <= 12 ->
  1 <= _ymd2ord y m 1 <= _MAXORDINAL /\ _ord2ymd (_ymd2ord y m 1) = (y, m, 1).
Proof.
  intros Hy Hm. pose proof (month_shape y m Hm) as F.
  destruct (spec_next_month y m) as [ny nm]. destruct F as (_ & Hord & _).
  destruct (first_ordinal_bounds y m Hy Hm) as [Hb _].
  split; assumption.
Qed.

Lemma next_of_previous y m :
  1 <= m <= 12 ->
  let '(py, pm) := previous_month y m in
  1 <= pm <= 12 /\ spec_next_month py pm = (y, m).
Proof.
  intros Hm. unfold previous_month, spec_next_month.
  destruct (m =? 1) eqn:E.
  - apply Z.eqb_eq in E. subst m. simpl. split; [lia | f_equal; lia].
  - apply Z.eqb_neq in E.
    replace (m - 1 =? 12) with false by (symmetry; apply Z.eqb_neq; lia).
    split; [lia | f_equal; lia].
Qed.

Lemma day_before_first y m :
  1 <= y <= 9999 -> 1 <= m <= 12 -> (y, m) <> (1, 1) ->
  let '(py, pm) := previous_month y m in
  2 <= _ymd2ord y m 1
  /\ _ord2ymd (_ymd2ord y m 1 - 1) = (py, pm, _days_in_month py pm)
  /\ _ymd2ord py pm (_days_in_month py pm) = _ymd2ord y m 1 - 1.
Proof.
  intros Hy Hm Hne.
  destruct (first_ordinal_bounds y m Hy Hm) as [_ Htwo].
  pose proof (next_of_previous y m Hm) as Hprev.
  destruct (previous_month y m) as [py pm]. destruct Hprev as [Hpm Hnext].
  pose proof (month_shape py pm Hpm) as F. rewrite Hnext in F.
  destruct F as (_ & _ & Hlast & Hday).
  rewrite Hday. repeat split; auto.
Qed.

Section Dates.
Context (w : world).

Lemma timestamp_midnight y m :
  timestamp (midnight y m 1) = _ymd2ord y m 1 * 86400 - epoch.
Proof.
  unfold timestamp, wall_us, toordinal, midnight, US_PER_DAY, US_PER_SECOND.
  simpl. f_equal.
  symmetry. apply (Z.div_unique _ _ _ 0); lia.
Qed.

(** [local] at an instant whose local day is known to the calendar. *)
Lemma local_at u off n secs yy mm dd :
  local_timezone w (u - epoch) = Return off ->
  u + off = n * 86400 + secs -> 0 <= secs < 86400 ->
  _ord2ymd n = (yy, mm, dd) -> 1 <= yy <= 9999 -> _ymd2ord yy mm dd = n ->
  local w u = Return (u + off).
Proof.
  intros Htz Hsum Hsecs Hord Hyy Hback.
  unfold local. rewrite Htz. cbn [rbind]. rewrite Hsum.
  assert (Hdiv : (n * 86400 + secs) / 86400 = n)
    by (symmetry; apply (Z.div_unique _ _ _ secs); lia).
  assert (Hmod : (n * 86400 + secs) mod 86400 = secs)
    by (symmetry; apply (Z.mod_unique _ _ n); lia).
  rewrite Hdiv, Hmod, Hord.
  unfold utc_to_seconds, MINYEAR, MAXYEAR.
  replace ((1 <=? yy) && (yy <=? 9999)) with true
    by (symmetry; apply andb_true_iff; lia).
  cbn [negb]. rewrite Hback. f_equal.
  pose proof (hms_recompose secs). lia.
Qed.

Lemma previous_month_year y m :
  1 <= y <= 9999 -> 1 <= m <= 12 -> (y, m) <> (1, 1) ->
  1 <= fst (previous_month y m) <= 9999.
Proof.
  intros Hy Hm Hne. unfold previous_month.
  destruct (m =? 1) eqn:E; simpl; [|lia].
  apply Z.eqb_eq in E. subst m.
  assert (y <> 1) by congruence. lia.
Qed.

Lemma local_to_seconds_first_of_month y m off :
  1 <= y <= 9999 -> 1 <= m <= 12 -> (y, m) <> (1, 1) ->
  steady w (midnight y m 1) off ->
  -86400 < off < 86400 ->
  local_to_seconds w (midnight y m 1) = Return (_ymd2ord y m 1 * 86400 - off).
Proof.
  intros Hy Hm Hne Hst Hoff.
  destruct (first_ordinal y m Hy Hm) as [Ho Hord].
  pose proof (day_before_first y m Hy Hm Hne) as Hprev.
  pose proof (previous_month_year y m Hy Hm Hne) as Hpy.
  destruct (previous_month y m) as [py pm]. simpl in Hpy.
  destruct Hprev as (Ho2 & Hpord & Hback).
  unfold steady in Hst. rewrite timestamp_midnight in Hst.
  set (o := _ymd2ord y m 1) in *.
  assert (Hl1 : local w (o * 86400) = Return (o * 86400 + off)).
  { destruct (Z_le_gt_dec 0 off).
    - apply (local_at _ _ o off y m 1); auto; try lia. apply Hst. lia.
    - apply (local_at _ _ (o - 1) (86400 + off) py pm (_days_in_month py pm));
        auto; try lia. apply Hst. lia. }
  assert (Hl2 : local w (o * 86400 - off) = Return (o * 86400)).
  { replace (o * 86400) with (o * 86400 - off + off) at 2 by lia.
    apply (local_at _ _ o 0 y m 1); auto; try lia. apply Hst. lia. }
  assert (Hl3 : local w (o * 86400 - off - 86400) = Return (o * 86400 - 86400)).
  { replace (o * 86400 - 86400) with (o * 86400 - off - 86400 + off) by lia.
    apply (local_at _ _ (o - 1) 0 py pm (_days_in_month py pm)); auto; try lia.
    apply Hst. lia. }
  unfold local_to_seconds, utc_to_seconds, MINYEAR, MAXYEAR, max_fold_seconds.
  cbn [midnight dt_year dt_month dt_day dt_hour dt_minute dt_second].
  replace ((1 <=? y) && (y <=? 9999)) with true
    by (symmetry; apply andb_true_iff; lia).
  cbn [negb rbind]. fold o.
  replace (((o * 24 + 0) * 60 + 0) * 60 + 0) with (o * 86400) by lia.
  rewrite Hl1. cbn [rbind].
  replace (o * 86400 - (o * 86400 + off - o * 86400)) with (o * 86400 - off) by lia.
  rewrite Hl2. cbn [rbind]. rewrite Z.eqb_refl.
  replace (o * 86400 - off - 24 * 3600) with (o * 86400 - off - 86400) by lia.
  rewrite Hl3. cbn [rbind].
  replace (o * 86400 + off - o * 86400 =? o * 86400 - 86400 - (o * 86400 - off - 86400))
    with true by (symmetry; apply Z.eqb_eq; lia).
  reflexivity.
Qed.

Lemma astimezone_first_of_month y m off :
  1 <= y <= 9999 -> 1 <= m <= 12 -> (y, m) <> (1, 1) ->
  steady w (midnight y m 1) off ->
  -86400 < off < 86400 ->
  astimezone w (midnight y m 1) = Return (mk_aware (midnight y m 1) off).
Proof.
  intros Hy Hm Hne Hst Hoff.
  destruct (first_ordinal y m Hy Hm) as [Ho Hord].
  pose proof (day_before_first y m Hy Hm Hne) as Hprev.
  destruct (previous_month y m) as [py pm].
  destruct Hprev as (Ho2 & Hpord & Hback).
  assert (Hzone : local_timezone_from_timestamp w
                    (_ymd2ord y m 1 * 86400 - off - epoch) = Return off).
  { unfold local_timezone_from_timestamp.
    rewrite (Hst (_ymd2ord y m 1 * 86400 - off - epoch))
      by (rewrite timestamp_midnight; lia).
    cbn [rbind].
    replace ((-86400 <? off) && (off <? 86400)) with true
      by (symmetry; apply andb_true_iff; lia).
    reflexivity. }
  unfold astimezone, local_timezone_from_local.
  rewrite (local_to_seconds_first_of_month y m off Hy Hm Hne Hst Hoff).
  cbn [rbind]. rewrite Hzone. cbn [rbind].
  unfold datetime_sub, timedelta_seconds, local_timezone_of_utc.
  destruct (Z_le_gt_dec off 0) as [Hneg|Hpos].
  - (* west of Greenwich: UTC is later the same day *)
    rewrite (datetime_add_normal _ _ (_ymd2ord y m 1) (- off) 0);
      [| unfold wall_us, toordinal, midnight, US_PER_DAY, US_PER_SECOND; simpl; lia
       | lia | unfold US_PER_SECOND; lia | lia].
    rewrite Hord. cbn [rbind].
    match goal with |- context [wall_us ?d / US_PER_SECOND - epoch] =>
      replace (wall_us d / US_PER_SECOND - epoch)
        with (_ymd2ord y m 1 * 86400 - off - epoch) end.
    2:{ f_equal. unfold wall_us, toordinal, US_PER_DAY, US_PER_SECOND.
        cbn [dt_year dt_month dt_day dt_hour dt_minute dt_second dt_microsecond].
        pose proof (hms_recompose (- off)).
        apply (Z.div_unique _ _ _ 0); lia. }
    rewrite Hzone. cbn [rbind].
    rewrite (datetime_add_normal _ _ (_ymd2ord y m 1) 0 0);
      [| unfold wall_us, toordinal, US_PER_DAY, US_PER_SECOND; simpl;
         pose proof (hms_recompose (- off)); lia
       | lia | unfold US_PER_SECOND; lia | lia].
    rewrite Hord. reflexivity.
  - (* east of Greenwich: UTC is on the previous day *)
    rewrite (datetime_add_normal _ _ (_ymd2ord y m 1 - 1) (86400 - off) 0);
      [| unfold wall_us, toordinal, midnight, US_PER_DAY, US_PER_SECOND; simpl; lia
       | lia | unfold US_PER_SECOND; lia | lia].
    rewrite Hpord. cbn [rbind].
    match goal with |- context [wall_us ?d / US_PER_SECOND - epoch] =>
      replace (wall_us d / US_PER_SECOND - epoch)
        with (_ymd2ord y m 1 * 86400 - off - epoch) end.
    2:{ f_equal. unfold wall_us, toordinal, US_PER_DAY, US_PER_SECOND.
        cbn [dt_year dt_month dt_day dt_hour dt_minute dt_second dt_microsecond].
        rewrite Hback.
        pose proof (hms_recompose (86400 - off)).
        apply (Z.div_unique _ _ _ 0); lia. }
    rewrite Hzone. cbn [rbind].
    rewrite (datetime_add_normal _ _ (_ymd2ord y m 1) 0 0);
      [| unfold wall_us, toordinal, US_PER_DAY, US_PER_SECOND; simpl;
         rewrite Hback; pose proof (hms_recompose (86400 - off)); lia
       | lia | unfold US_PER_SECOND; lia | lia].
    rewrite Hord. reflexivity.
Qed.

Lemma millisecond_before_first y m ny nm :
  1 <= y <= 9999 -> 1 <= m <= 12 -> (y, m) <> (9999, 12) ->
  spec_next_month y m = (ny, nm) ->
  datetime_sub (midnight ny nm 1) (timedelta_milliseconds 1)
    = Return (last_millisecond y m)
  /\ wall_us (last_millisecond y m) = wall_us (midnight ny nm 1) - 1000.
Proof.
  intros Hy Hm Hmax Hnext.
  assert (Hny : 1 <= ny <= 9999 /\ 1 <= nm <= 12 /\ (ny, nm) <> (1, 1)
                /\ previous_month ny nm = (y, m)).
  { unfold spec_next_month in Hnext. unfold previous_month.
    destruct (m =? 12) eqn:E; injection Hnext as <- <-.
    - apply Z.eqb_eq in E. subst m.
      assert (y <> 9999) by (intros ->; apply Hmax; reflexivity).
      repeat split; try lia. intros [= ?]; lia.
      simpl. f_equal; lia.
    - apply Z.eqb_neq in E.
      repeat split; try lia. intros [= ? ?]; lia.
      replace (m + 1 =? 1) with false by (symmetry; apply Z.eqb_neq; lia).
      f_equal; lia. }
  destruct Hny as (Hny & Hnm & Hne & Hprev).
  pose proof (day_before_first ny nm Hny Hnm Hne) as Hday.
  rewrite Hprev in Hday. destruct Hday as (Ho & Hord & Hback).
  destruct (first_ordinal ny nm Hny Hnm) as [Hrange _].
  split.
  - unfold datetime_sub, timedelta_milliseconds.
    rewrite (datetime_add_normal _ _ (_ymd2ord ny nm 1 - 1) 86399 999000);
      [| unfold wall_us, toordinal, midnight, US_PER_DAY, US_PER_SECOND; simpl; lia
       | lia | unfold US_PER_SECOND; lia | lia].
    rewrite Hord. reflexivity.
  - unfold wall_us, toordinal, last_millisecond, midnight, US_PER_DAY, US_PER_SECOND.
    simpl. rewrite Hback. lia.
Qed.

End Dates.

(** ** Running commands *)

Lemma bind_Return {A B} (m : M A) (k : A -> M B) σ σ1 t1 a :
  m σ = (σ1, t1, Return a) ->
  (m ≫= k) σ = let '(σ2, t2, r) := k a σ1 in (σ2, t1 ++ t2, r).
Proof.
  intros H. unfold mbind, M_bind. rewrite H.
  destruct (k a σ1) as [[σ2 t2] r]. reflexivity.
Qed.

Lemma bind_Raise {A B} (m : M A) (k : A -> M B) σ σ1 t1 e :
  m σ = (σ1, t1, Raise e) -> (m ≫= k) σ = (σ1, t1, Raise e).
Proof. intros H. unfold mbind, M_bind. rewrite H. reflexivity. Qed.

Section Table.
Context (w : world).

Lemma add_rows_triples names rs acc :
  length names = 3%nat ->
  Forall (fun r : list cell => length r = 3%nat) rs ->
  add_rows (mk_table names acc) rs = Return (mk_table names (acc ++ rs)).
Proof.
  intros Hnames Hrs. revert acc.
  induction Hrs as [|r rs Hr _ IH]; intros acc; simpl.
  - rewrite app_nil_r. reflexivity.
  - unfold add_row. simpl. rewrite Hnames, Hr. simpl.
    rewrite IH, <- app_assoc. reflexivity.
Qed.

Lemma pretty_print_table_run l rs σ :
  objects σ !! l = Some rs ->
  Forall triple rs ->
  _pretty_print_table w l σ
  = (mk_store (<[l := header :: rs]> (objects σ)) (next_ref σ),
     [Stdout (get_string w header rs)], Return tt).
Proof.
  intros Hl Hrs.
  unfold _pretty_print_table, mbind, M_bind, list_insert_0, read_list.
  rewrite Hl. simpl. rewrite lookup_insert_eq. simpl.
  unfold lift. simpl.
  rewrite (add_rows_triples header rs [] eq_refl Hrs). simpl.
  reflexivity.
Qed.

Lemma pretty_print_table_frame l rs σ :
  objects σ !! l = Some rs ->
  exists t r,
    _pretty_print_table w l σ
    = (mk_store (<[l := header :: rs]> (objects σ)) (next_ref σ), t, r)
    /\ Forall (fun e => is_print e = true) t.
Proof.
  intros Hl.
  unfold _pretty_print_table, mbind, M_bind, list_insert_0, read_list.
  rewrite Hl. simpl. rewrite lookup_insert_eq. simpl.
  unfold lift. simpl.
  destruct (add_rows _ rs) as [t'|e]; simpl.
  - eexists _, _. split; [reflexivity|]. repeat constructor.
  - eexists _, _. split; [reflexivity|]. constructor.
Qed.

End Table.

Example table_of_one_event :
  _pretty_print_table utc_world 0%nat (one_list [[Some "2022-10-10"; Some "e1"; Some "Dinner"]])
  = (one_list [header; [Some "2022-10-10"; Some "e1"; Some "Dinner"]],
     [Stdout ("| start | id | title |" +:+ NL +:+ "| 2022-10-10 | e1 | Dinner |")],
     Return tt).
Proof. vm_compute. reflexivity. Qed.

Example upcoming_empty :
  list_upcoming_events utc_world 10 empty_store
  = (empty_store,
     [TokenRead; Build; Stdout "Getting the upcoming 10 events";
      EventsList (mk_list_request "primary" "2022-10-10T12:00:00Z" None (Some 10) true "startTime");
      Stdout "No upcoming events found."],
     Return tt).
Proof. vm_compute. reflexivity. Qed.

Example month_february_2022 :
  month_range utc_world 2022 2
  = Return (mk_range (mk_aware (mk_datetime 2022 2 1 0 0 0 0) 0)
              (mk_aware (mk_datetime 2022 2 28 23 59 59 999000) 0)).
Proof. vm_compute. reflexivity. Qed.

(** A listing with one event builds a new list object and prints it as a
    table; the header ends up in that object. *)
Example upcoming_one_event :
  list_upcoming_events
    (with_list (Return (mk_list_response (Some [dinner]))) utc_world) 1 empty_store
  = (one_list [header; [Some "2022-10-10T18:00:00+02:00"; Some "e1"; Some "Dinner"]],
     [TokenRead; Build; Stdout "Getting the upcoming 1 events";
      EventsList (mk_list_request "primary" "2022-10-10T12:00:00Z" None (Some 1) true "startTime");
      Stdout ("| start | id | title |" +:+ NL
              +:+ "| 2022-10-10T18:00:00+02:00 | e1 | Dinner |")],
     Return tt).
Proof. vm_compute. reflexivity. Qed.

(** An event without a title has no ['summary'] key: the list
    comprehension raises [KeyError], which no handler catches. *)
Example upcoming_untitled_event :
  list_upcoming_events
    (with_list (Return (mk_list_response
                          (Some [mk_event (Some (mk_start None (Some "2022-10-11")))
                                   (Some "e2") None None])))
       utc_world) 1 empty_store
  = (empty_store,
     [TokenRead; Build; Stdout "Getting the upcoming 1 events";
      EventsList (mk_list_request "primary" "2022-10-10T12:00:00Z" None (Some 1) true "startTime")],
     Raise (KeyError "summary")).
Proof. vm_compute. reflexivity. Qed.

(** ** Obtaining the service *)

Lemma app_nil_eq {A} (s : list A) : s = [] ++ s.
Proof. reflexivity. Qed.

Lemma cons_app_eq {A} (x : A) l p s : l = p ++ s -> x :: l = (x :: p) ++ s.
Proof. intros ->. reflexivity. Qed.

(** Finds the prefix [?p] in a goal [l = ?p ++ s]. *)
Ltac prefix := first [ apply app_nil_eq | apply cons_app_eq; prefix ].

Ltac run :=
  unfold mbind, M_bind, mret, M_ret, call, lift, raise, print,
    try_except_HttpError, events; simpl.

Section Service.
Context (w : world).

Lemma create_service_shape σ :
  exists t r,
    _create_service w σ = (σ, t, r)
    /\ Forall (fun e => is_setup e = true) t
    /\ (r = Return None ->
        exists t0 status text,
          build w = Raise (HttpError status text)
          /\ t = t0 ++ [Build; Stdout ("An error occurred: " +:+ text)])
    /\ (In Build t ->
        forall status text, build w = Raise (HttpError status text) ->
        r = Return None).
Proof.
  unfold _create_service. run.
  destruct (token_json w) as [[c|e]|]; simpl;
    try destruct (valid c); simpl;
    try destruct (expired c); simpl;
    try destruct (refresh_token c); simpl;
    try destruct (refresh w) as [[]|?]; simpl;
    try destruct (run_local_server w) as [[]|?]; simpl;
    try destruct (token_write w) as [[]|?]; simpl;
    try (destruct (build w) as [[]|[]] eqn:Hb; simpl);
    eexists _, _; (split; [reflexivity|]);
    (split; [repeat constructor|]);
    (split; [intros [=] | intros Hin status' text' [=]]);
    subst; simpl in *; try solve [intuition discriminate]; try reflexivity;
    try (eexists _, _, _; split; [reflexivity|]; simpl; prefix).
Qed.

Lemma setup_In t x :
  Forall (fun e => is_setup e = true) t -> In x t -> is_setup x = true.
Proof. intros H Hin. exact (proj1 (List.Forall_forall _ _) H x Hin). Qed.

(** An occurrence of a non-setup event after a setup prefix lies in the
    rest of the trace. *)
Lemma split_after_setup t1 : forall tail pre x post,
  Forall (fun e => is_setup e = true) t1 ->
  is_setup x = false ->
  t1 ++ tail = pre ++ x :: post ->
  exists pre2, pre = t1 ++ pre2 /\ tail = pre2 ++ x :: post.
Proof.
  induction t1 as [|a t1 IH]; intros tail pre x post Hs Hx Heq.
  - exists pre. split; [reflexivity | assumption].
  - inversion Hs as [|? ? Ha Hs']; subst.
    destruct pre as [|b pre]; simpl in Heq; injection Heq as -> Heq.
    + congruence.
    + destruct (IH _ _ _ _ Hs' Hx Heq) as (pre2 & -> & ->).
      exists pre2. split; reflexivity.
Qed.

Lemma delete_event_runs id σ :
  exists t1 tail r,
    delete_event w id σ = (σ, t1 ++ tail, r)
    /\ Forall (fun e => is_setup e = true) t1
    /\ delete_run id tail r.
Proof.
  destruct (create_service_shape σ) as (t1 & r1 & Hcs & Hsetup & _).
  exists t1. unfold delete_event.
  destruct r1 as [[[]|]|e].
  - rewrite (bind_Return _ _ _ _ _ _ Hcs). run.
    destruct (get_execute w id) as [ev|e]; simpl.
    + destruct (describe ev) as [what|e]; simpl.
      * destruct (confirm w _) as [[]|e]; simpl.
        -- destruct (delete_execute w id) as [[]|e]; simpl;
             eexists _, _; (split; [reflexivity|]); split; trivial; constructor.
        -- eexists _, _; (split; [reflexivity|]); split; trivial; constructor.
        -- eexists _, _; (split; [reflexivity|]); split; trivial; constructor.
      * eexists _, _; (split; [reflexivity|]); split; trivial; constructor.
    + eexists _, _; (split; [reflexivity|]); split; trivial; constructor.
  - rewrite (bind_Return _ _ _ _ _ _ Hcs). run.
    eexists _, _; (split; [reflexivity|]); split; trivial; constructor.
  - rewrite (bind_Raise _ _ _ _ _ _ Hcs).
    exists [], (Raise e). rewrite app_nil_r. repeat split; trivial. constructor.
Qed.

End Service.

(** ** Claims about the commands *)

(** C3.  A month outside 1..12 makes [list_events_for_month] fail on its
    assertion, a validation error, with an empty trace: the service is not
    created and no list request is sent. *)
Theorem list_events_for_month_rejects_month w year month σ :
  month < 1 \/ 12 < month ->
  list_events_for_month w year month σ = (σ, [], Raise AssertionError)
  /\ is_validation_error AssertionError = true.
Proof.
  intros Hm. split; [|reflexivity].
  unfold list_events_for_month.
  replace ((1 <=? month) && (month <=? 12)) with false; [reflexivity|].
  symmetry. apply andb_false_iff. lia.
Qed.

Lemma list_events_for_month_rejects_month_witness :
  (13 < 1 \/ 12 < 13)
  /\ list_events_for_month utc_world 2022 13 empty_store
     = (empty_store, [], Raise AssertionError).
Proof.
  split; [right; lia|].
  apply (list_events_for_month_rejects_month utc_world 2022 13 empty_store).
  right; lia.
Defined.

(** C6.  In every run of [delete_event], a delete request is immediately
    preceded by a confirmation that was answered yes; and when the
    confirmation is answered no, the trace holds no delete request, the
    line "You did not delete the event." is printed and the command
    returns. *)
Theorem delete_only_after_confirmation w id σ :
  let '(_, t, r) := delete_event w id σ in
  (forall pre post id',
      t = pre ++ EventsDelete id' :: post ->
      exists pre' prompt, pre = pre' ++ [Confirm prompt (Return true)])
  /\ (forall prompt,
        In (Confirm prompt (Return false)) t ->
        (forall id', ~ In (EventsDelete id') t)
        /\ In (Stdout "You did not delete the event.") t
        /\ r = Return tt).
Proof.
  destruct (delete_event_runs w id σ) as (t1 & tail & r & -> & Hsetup & Hrun).
  split.
  - intros pre post id' Heq.
    destruct (split_after_setup t1 tail pre (EventsDelete id') post Hsetup eq_refl Heq)
      as (pre2 & -> & Htail).
    revert Htail. inversion Hrun; subst; intros Htail;
      repeat (destruct pre2 as [|? pre2]; simpl in Htail; try discriminate);
      injection Htail as <- <- <- <-;
      exists (t1 ++ [EventsGet id]); eexists;
      rewrite <- app_assoc; reflexivity.
  - intros prompt Hin. apply in_app_or in Hin as [Hin|Hin].
    + apply (setup_In _ _ Hsetup) in Hin. discriminate.
    + inversion Hrun; subst; simpl in Hin;
        try solve [intuition discriminate].
      repeat split.
      * intros id' Hd. apply in_app_or in Hd as [Hd|Hd].
        -- apply (setup_In _ _ Hsetup) in Hd. discriminate.
        -- simpl in Hd. intuition discriminate.
      * apply in_or_app. right. simpl. auto.
Qed.

(** In the sample world every id is absent: the get request is answered
    with 404 and [delete_event] fails with that error. *)
Example delete_missing_event :
  exists e,
    delete_event utc_world "nope" empty_store
    = (empty_store, [TokenRead; Build; EventsGet "nope"], Raise e)
    /\ is_not_found e = true.
Proof. eexists. split; reflexivity. Qed.

(** C5, as amended.  With a service at hand, [delete_event] first sends
    the get request for the id.  If that request fails (in particular with
    404, the id does not exist) the command fails with that error, and the
    trace holds no confirmation prompt and no delete request.  If the
    fetched record has a start and a summary, the user confirms and the
    delete request succeeds, the prompt and the success line name the
    start of the fetched record, its ['dateTime'] or else its ['date'],
    and its summary.  A fetched record without a start or without a
    summary makes the command fail with [KeyError] right after the get
    request: no prompt is shown and no delete request is sent. *)
Theorem delete_event_fetches_first w id σ σ1 t1 :
  _create_service w σ = (σ1, t1, Return (Some Service)) ->
  (forall e,
      get_execute w id = Raise e ->
      delete_event w id σ = (σ1, t1 ++ [EventsGet id], Raise e)
      /\ (forall p a, ~ In (Confirm p a) (t1 ++ [EventsGet id]))
      /\ (forall id', ~ In (EventsDelete id') (t1 ++ [EventsGet id])))
  /\ (forall fetched start summary,
        get_execute w id = Return fetched ->
        e_start fetched = Some start ->
        e_summary fetched = Some summary ->
        confirm w (delete_prompt (reported start summary)) = Return true ->
        delete_execute w id = Return tt ->
        delete_event w id σ
        = (σ1,
           t1 ++ [EventsGet id;
                  Confirm (delete_prompt (reported start summary)) (Return true);
                  EventsDelete id;
                  Stdout ("Event has been deleted successfully: "
                          +:+ reported start summary)],
           Return tt))
  /\ (forall fetched,
        get_execute w id = Return fetched ->
        e_start fetched = None \/ e_summary fetched = None ->
        delete_event w id σ
        = (σ1, t1 ++ [EventsGet id],
           Raise (KeyError (match e_start fetched with
                            | None => "start"
                            | Some _ => "summary"
                            end)))
        /\ (forall p a, ~ In (Confirm p a) (t1 ++ [EventsGet id]))
        /\ (forall id', ~ In (EventsDelete id') (t1 ++ [EventsGet id]))).
Proof.
  intros Hcs.
  destruct (create_service_shape w σ) as (t & r & Hcs' & Hsetup & _).
  rewrite Hcs in Hcs'. injection Hcs' as <- <- <-.
  assert (Hquiet : (forall p a, ~ In (Confirm p a) (t1 ++ [EventsGet id]))
                   /\ (forall id', ~ In (EventsDelete id') (t1 ++ [EventsGet id]))).
  { split.
    - intros p a Hin. apply in_app_or in Hin as [Hin|Hin].
      + apply (setup_In _ _ Hsetup) in Hin. discriminate.
      + simpl in Hin. intuition discriminate.
    - intros id' Hin. apply in_app_or in Hin as [Hin|Hin].
      + apply (setup_In _ _ Hsetup) in Hin. discriminate.
      + simpl in Hin. intuition discriminate. }
  split; [|split].
  - intros e Hget. split; [|exact Hquiet].
    unfold delete_event. rewrite (bind_Return _ _ _ _ _ _ Hcs). run.
    rewrite Hget. reflexivity.
  - intros fetched start summary Hget Hstart Hsummary Hyes Hdel.
    unfold delete_event. rewrite (bind_Return _ _ _ _ _ _ Hcs). run.
    rewrite Hget. simpl.
    unfold describe, event_start. rewrite Hstart, Hsummary. simpl.
    match goal with
    | |- context [confirm w ?p] =>
        change (confirm w p)
          with (confirm w (delete_prompt (reported start summary)))
    end.
    rewrite Hyes. simpl. rewrite Hdel. simpl. reflexivity.
  - intros fetched Hget Hmissing. split; [|exact Hquiet].
    unfold delete_event. rewrite (bind_Return _ _ _ _ _ _ Hcs). run.
    rewrite Hget. simpl.
    unfold describe, event_start.
    destruct (e_start fetched) as [start|]; simpl; [|reflexivity].
    destruct Hmissing as [Hs|Hs]; [discriminate|].
    rewrite Hs. reflexivity.
Qed.

Lemma delete_event_fetches_first_witness :
  delete_event utc_world "e1" empty_store
  = (empty_store, [TokenRead; Build] ++ [EventsGet "e1"],
     Raise (HttpError 404 "Not Found"))
  /\ delete_event (with_confirm (Return true) (with_get (Return dinner) utc_world))
       "e1" empty_store
     = (empty_store,
        [TokenRead; Build]
        ++ [EventsGet "e1";
            Confirm "Do you want to delete this event: 2022-10-10T18:00:00+02:00: Dinner?"
              (Return true);
            EventsDelete "e1";
            Stdout "Event has been deleted successfully: 2022-10-10T18:00:00+02:00: Dinner"],
        Return tt).
Proof.
  split.
  - apply (delete_event_fetches_first utc_world "e1" empty_store empty_store
             [TokenRead; Build] eq_refl).
    reflexivity.
  - apply (delete_event_fetches_first
             (with_confirm (Return true) (with_get (Return dinner) utc_world))
             "e1" empty_store empty_store [TokenRead; Build] eq_refl
             ) with (fetched := dinner)
                    (start := mk_start (Some "2022-10-10T18:00:00+02:00") None)
                    (summary := "Dinner");
      reflexivity.
Defined.

(** C5 as stated fails for an event without a title.  The id exists, the
    user would confirm and the delete request would succeed, yet the
    command fails with [KeyError], which is not the [NotFoundError] of an
    absent id: the user is not asked, nothing is deleted and nothing is
    reported. *)
Lemma delete_existing_untitled_event :
  let w := with_confirm (Return true) (with_get (Return untitled) utc_world) in
  get_execute w "e2" = Return untitled
  /\ (forall prompt, confirm w prompt = Return true)
  /\ delete_execute w "e2" = Return tt
  /\ delete_event w "e2" empty_store
     = (empty_store, [TokenRead; Build; EventsGet "e2"],
        Raise (KeyError "summary"))
  /\ is_not_found (KeyError "summary") = false.
Proof. repeat split. Qed.

(** C9.  With a service at hand, a list response without events (no
    [items] key, or an empty list) makes either list command print
    "No upcoming events found." and return: nothing is raised, no table is
    printed and the store is left as it was. *)
Theorem no_events_is_not_an_error w σ σ1 t1 :
  _create_service w σ = (σ1, t1, Return (Some Service)) ->
  (forall num resp,
      list_execute w (upcoming_request w num) = Return resp ->
      default [] (items resp) = [] ->
      list_upcoming_events w num σ
      = (σ1,
         t1 ++ [Stdout (upcoming_banner num);
                EventsList (upcoming_request w num);
                Stdout "No upcoming events found."],
         Return tt))
  /\ (forall year month r resp,
        1 <= month <= 12 ->
        month_range w year month = Return r ->
        list_execute w (month_request r) = Return resp ->
        default [] (items resp) = [] ->
        list_events_for_month w year month σ
        = (σ1,
           t1 ++ [Stdout (month_banner r);
                  EventsList (month_request r);
                  Stdout "No upcoming events found."],
           Return tt)).
Proof.
  intros Hcs. split.
  - intros num resp Hlist Hnone.
    unfold list_upcoming_events. rewrite (bind_Return _ _ _ _ _ _ Hcs). run.
    rewrite Hlist. simpl. rewrite Hnone. reflexivity.
  - intros year month r resp Hm Hrange Hlist Hnone.
    unfold list_events_for_month.
    replace ((1 <=? month) && (month <=? 12)) with true
      by (symmetry; apply andb_true_iff; lia).
    simpl. rewrite (bind_Return _ _ _ _ _ _ Hcs). run.
    rewrite Hrange. simpl. rewrite Hlist. simpl. rewrite Hnone. reflexivity.
Qed.

Lemma no_events_is_not_an_error_witness :
  list_upcoming_events utc_world 10 empty_store
  = (empty_store,
     [TokenRead; Build]
     ++ [Stdout (upcoming_banner 10);
         EventsList (upcoming_request utc_world 10);
         Stdout "No upcoming events found."],
     Return tt)
  /\ list_events_for_month (with_list (Return (mk_list_response (Some []))) utc_world)
       2022 2 empty_store
     = (empty_store,
        [TokenRead; Build]
        ++ [Stdout (month_banner
                     (mk_range (mk_aware (mk_datetime 2022 2 1 0 0 0 0) 0)
                        (mk_aware (mk_datetime 2022 2 28 23 59 59 999000) 0)));
            EventsList (month_request
                     (mk_range (mk_aware (mk_datetime 2022 2 1 0 0 0 0) 0)
                        (mk_aware (mk_datetime 2022 2 28 23 59 59 999000) 0)));
            Stdout "No upcoming events found."],
        Return tt).
Proof.
  split.
  - apply (no_events_is_not_an_error utc_world empty_store empty_store
             [TokenRead; Build] eq_refl) with (resp := mk_list_response None);
      reflexivity.
  - apply (no_events_is_not_an_error
             (with_list (Return (mk_list_response (Some []))) utc_world)
             empty_store empty_store [TokenRead; Build] eq_refl)
      with (resp := mk_list_response (Some []));
      [lia | vm_compute; reflexivity | reflexivity | reflexivity].
Defined.

(** C10, as amended.  When building the service raises [HttpError],
    [_create_service] prints the error and returns [None].  A handler then
    fails with [AttributeError] at its first [service.events()], provided
    it gets that far: [list_upcoming_events] and [delete_event] always do,
    [list_events_for_month] does when the month range can be computed, and
    [add_event] does when both date strings parse. *)
Theorem missing_service_raises_AttributeError w σ σ1 t1 r status text :
  _create_service w σ = (σ1, t1, r) ->
  In Build t1 ->
  build w = Raise (HttpError status text) ->
  r = Return None
  /\ (exists t0, t1 = t0 ++ [Build; Stdout ("An error occurred: " +:+ text)])
  /\ (forall num,
        list_upcoming_events w num σ
        = (σ1, t1 ++ [Stdout (upcoming_banner num)], Raise AttributeError))
  /\ (forall year month range,
        1 <= month <= 12 ->
        month_range w year month = Return range ->
        list_events_for_month w year month σ
        = (σ1, t1 ++ [Stdout (month_banner range)], Raise AttributeError))
  /\ (forall title s e tz loc desc start end_,
        Strptime.strptime s = Return start ->
        Strptime.strptime e = Return end_ ->
        add_event w title s e tz loc desc σ = (σ1, t1, Raise AttributeError))
  /\ (forall id, delete_event w id σ = (σ1, t1, Raise AttributeError)).
Proof.
  intros Hcs Hbuilt Hbuild.
  destruct (create_service_shape w σ) as (t & r' & Hcs' & _ & Hnone & Hfail).
  rewrite Hcs in Hcs'. injection Hcs' as <- <- <-.
  pose proof (Hfail Hbuilt _ _ Hbuild) as ->.
  split; [reflexivity|]. split.
  - destruct (Hnone eq_refl) as (t0 & status' & text' & Hb & ->).
    rewrite Hbuild in Hb. injection Hb as <- <-. exists t0. reflexivity.
  - repeat split.
    + intros num. unfold list_upcoming_events.
      rewrite (bind_Return _ _ _ _ _ _ Hcs). run. reflexivity.
    + intros year month range Hm Hrange. unfold list_events_for_month.
      replace ((1 <=? month) && (month <=? 12)) with true
        by (symmetry; apply andb_true_iff; lia).
      simpl. rewrite (bind_Return _ _ _ _ _ _ Hcs). run.
      rewrite Hrange. reflexivity.
    + intros title s e tz loc desc start end_ Hs He. unfold add_event.
      rewrite (bind_Return _ _ _ _ _ _ Hcs). run.
      rewrite Hs, He. simpl. rewrite app_nil_r. reflexivity.
    + intros id. unfold delete_event.
      rewrite (bind_Return _ _ _ _ _ _ Hcs). run.
      rewrite app_nil_r. reflexivity.
Qed.

Lemma missing_service_raises_AttributeError_witness :
  delete_event (with_build (Raise unavailable) utc_world) "e1" empty_store
  = (empty_store,
     [TokenRead; Build; Stdout "An error occurred: Service Unavailable"],
     Raise AttributeError).
Proof.
  apply (missing_service_raises_AttributeError
           (with_build (Raise unavailable) utc_world) empty_store empty_store
           [TokenRead; Build; Stdout "An error occurred: Service Unavailable"]
           (Return None) 503 "Service Unavailable" eq_refl).
  - simpl. auto.
  - reflexivity.
Defined.

(** C10 as stated fails: with the service missing, [add_event] on a date
    string that does not parse ends with [ValueError], and
    [list_events_for_month] on year 10000 likewise; neither reaches
    [service.events()]. *)
Lemma missing_service_not_always_AttributeError :
  add_event (with_build (Raise unavailable) utc_world)
    "Dinner" "tomorrow" "2022-10-10 19:00" "UTC" "Unknown" "No description"
    empty_store
  = (empty_store,
     [TokenRead; Build; Stdout "An error occurred: Service Unavailable"],
     Raise ValueError)
  /\ list_events_for_month (with_build (Raise unavailable) utc_world)
       10000 1 empty_store
     = (empty_store,
        [TokenRead; Build; Stdout "An error occurred: Service Unavailable"],
        Raise ValueError).
Proof. split; vm_compute; reflexivity. Qed.

(** The list commands catch an [HttpError] of the list request: the error
    is printed once, the request is not repeated and the command returns. *)
Lemma list_upcoming_events_catches_HttpError w num σ σ1 t1 status text :
  _create_service w σ = (σ1, t1, Return (Some Service)) ->
  list_execute w (upcoming_request w num) = Raise (HttpError status text) ->
  list_upcoming_events w num σ
  = (σ1,
     t1 ++ [Stdout (upcoming_banner num);
            EventsList (upcoming_request w num);
            Stdout ("An error occurred: " +:+ text)],
     Return tt).
Proof.
  intros Hcs Hlist. unfold list_upcoming_events.
  rewrite (bind_Return _ _ _ _ _ _ Hcs). run. rewrite Hlist. reflexivity.
Qed.

Lemma list_events_for_month_catches_HttpError w year month r σ σ1 t1 status text :
  _create_service w σ = (σ1, t1, Return (Some Service)) ->
  1 <= month <= 12 ->
  month_range w year month = Return r ->
  list_execute w (month_request r) = Raise (HttpError status text) ->
  list_events_for_month w year month σ
  = (σ1,
     t1 ++ [Stdout (month_banner r);
            EventsList (month_request r);
            Stdout ("An error occurred: " +:+ text)],
     Return tt).
Proof.
  intros Hcs Hm Hrange Hlist. unfold list_events_for_month.
  replace ((1 <=? month) && (month <=? 12)) with true
    by (symmetry; apply andb_true_iff; lia).
  simpl. rewrite (bind_Return _ _ _ _ _ _ Hcs). run.
  rewrite Hrange. simpl. rewrite Hlist. reflexivity.
Qed.

(** [add_event] and [delete_event] have no handler: an [HttpError] of the
    insert, get or delete request leaves the command. *)
Lemma add_event_propagates w title s e tz loc desc start end_ σ σ1 t1 err :
  _create_service w σ = (σ1, t1, Return (Some Service)) ->
  Strptime.strptime s = Return start ->
  Strptime.strptime e = Return end_ ->
  let body :=
    mk_body title loc desc (mk_time (isoformat start) tz)
      (mk_time (isoformat end_) tz) [] in
  insert_execute w body = Raise err ->
  add_event w title s e tz loc desc σ
  = (σ1, t1 ++ [EventsInsert body], Raise err).
Proof.
  intros Hcs Hs He body Hins. unfold add_event.
  rewrite (bind_Return _ _ _ _ _ _ Hcs). run.
  rewrite Hs, He. simpl. fold body. rewrite Hins. reflexivity.
Qed.

(** C2 at its failing inputs: an [HttpError] of the insert request leaves
    [add_event], and one of the get request leaves [delete_event], with
    nothing printed; the same error in [list_upcoming_events] is caught
    and printed. *)
Lemma http_error_escapes_add_and_delete :
  add_event (with_insert (Raise unavailable) utc_world)
    "Dinner" "2022-10-10 18:00" "2022-10-10 19:00" "UTC" "Unknown"
    "No description" empty_store
  = (empty_store, [TokenRead; Build; EventsInsert dinner_body], Raise unavailable)
  /\ delete_event (with_get (Raise unavailable) utc_world) "e1" empty_store
     = (empty_store, [TokenRead; Build; EventsGet "e1"], Raise unavailable)
  /\ list_upcoming_events (with_list (Raise unavailable) utc_world) 10 empty_store
     = (empty_store,
        [TokenRead; Build; Stdout "Getting the upcoming 10 events";
         EventsList (upcoming_request utc_world 10);
         Stdout "An error occurred: Service Unavailable"],
        Return tt).
Proof. repeat split; vm_compute; reflexivity. Qed.

(** When a date string does not parse, [add_event] fails with
    [ValueError] after the service has been requested and before any
    insert request. *)
Lemma add_event_unparseable w title s e tz loc desc σ σ1 t1 svc :
  _create_service w σ = (σ1, t1, Return svc) ->
  Strptime.strptime s = Raise ValueError
  \/ (exists start, Strptime.strptime s = Return start)
     /\ Strptime.strptime e = Raise ValueError ->
  add_event w title s e tz loc desc σ = (σ1, t1, Raise ValueError).
Proof.
  intros Hcs Hbad. unfold add_event.
  rewrite (bind_Return _ _ _ _ _ _ Hcs). run.
  destruct Hbad as [-> | [[start ->] ->]]; simpl;
    rewrite app_nil_r; reflexivity.
Qed.

(** C4 at its failing input: without a token file, [add_event] on an
    unparseable start runs the consent flow, writes the token and builds
    the service before it fails with [ValueError];
    [list_events_for_month] in the same world rejects month 13 with an
    empty trace. *)
Lemma add_event_validates_after_service :
  add_event (with_token None utc_world)
    "Dinner" "10/10/2022 6pm" "2022-10-10 19:00" "UTC" "Unknown"
    "No description" empty_store
  = (empty_store, [Consent; TokenWrite; Build], Raise ValueError)
  /\ existsb is_network_call [Consent; TokenWrite; Build] = true
  /\ list_events_for_month (with_token None utc_world) 2022 13 empty_store
     = (empty_store, [], Raise AssertionError).
Proof. repeat split; vm_compute; reflexivity. Qed.

(** ** Claims about the month range and the table *)

(** C1, as amended.  Take a month in 1..12 of a year in 1..9999, other
    than January of year 1 and December 9999, and let the local clock be
    steady around the start of the month and around the start of the next
    month: at each of them one offset from UTC, strictly between -24h and
    24h, is in force from one day before to one day after.  Then
    [month_range] returns a range whose start is the first instant of the
    month in local time and whose end is one millisecond before the first
    instant of the next month, the next month of December being January of
    the following year. *)
Theorem month_range_covers_month w year month ny nm off_s off_e :
  1 <= month <= 12 ->
  1 <= year <= 9999 ->
  (year, month) <> (1, 1) ->
  (year, month) <> (9999, 12) ->
  spec_next_month year month = (ny, nm) ->
  steady w (midnight year month 1) off_s ->
  -86400 < off_s < 86400 ->
  steady w (midnight ny nm 1) off_e ->
  -86400 < off_e < 86400 ->
  exists r next_start,
    month_range w year month = Return r
    /\ astimezone w (midnight year month 1) = Return (start_date r)
    /\ start_date r = mk_aware (midnight year month 1) off_s
    /\ astimezone w (midnight ny nm 1) = Return next_start
    /\ next_start = mk_aware (midnight ny nm 1) off_e
    /\ instant_us (end_date r) = instant_us next_start - 1000
    /\ aw_utcoffset (end_date r) = aw_utcoffset next_start
    /\ end_date r = mk_aware (last_millisecond year month) off_e.
Proof.
  intros Hm Hy Hmin Hmax Hnext Htz_s Hoff_s Htz_e Hoff_e.
  assert (Hcode : (if month <? 12 then (year, month + 1) else (year + 1, 1))
                  = (ny, nm)).
  { rewrite <- Hnext. unfold spec_next_month.
    destruct (month <? 12) eqn:E1, (month =? 12) eqn:E2; try reflexivity.
    - apply Z.ltb_lt in E1. apply Z.eqb_eq in E2. lia.
    - apply Z.ltb_ge in E1. apply Z.eqb_neq in E2. lia. }
  assert (Hn : 1 <= ny <= 9999 /\ 1 <= nm <= 12 /\ (ny, nm) <> (1, 1)).
  { unfold spec_next_month in Hnext.
    destruct (month =? 12) eqn:E; injection Hnext as <- <-.
    - apply Z.eqb_eq in E. subst month.
      assert (year <> 9999) by (intros ->; apply Hmax; reflexivity).
      repeat split; try lia. intros [= H1]. lia.
    - apply Z.eqb_neq in E. repeat split; try lia. intros [= H1 H2]. lia. }
  destruct Hn as (Hny & Hnm & Hnot_first).
  pose proof (astimezone_first_of_month w year month off_s Hy Hm Hmin Htz_s Hoff_s)
    as Hstart.
  pose proof (astimezone_first_of_month w ny nm off_e Hny Hnm Hnot_first Htz_e Hoff_e)
    as Hnext_start.
  destruct (millisecond_before_first year month ny nm Hy Hm Hmax Hnext)
    as [Hsub Hwall].
  exists (mk_range (mk_aware (midnight year month 1) off_s)
            (mk_aware (last_millisecond year month) off_e)),
         (mk_aware (midnight ny nm 1) off_e).
  repeat split; try assumption.
  - unfold month_range.
    rewrite (datetime_ymd_valid year month Hy Hm). simpl.
    fold (midnight year month 1). rewrite Hstart. simpl.
    rewrite Hcode.
    rewrite (datetime_ymd_valid ny nm Hny Hnm). simpl.
    fold (midnight ny nm 1). rewrite Hnext_start. simpl.
    unfold aware_sub. simpl. rewrite Hsub. reflexivity.
  - unfold instant_us. simpl. rewrite Hwall. lia.
Qed.

(** On UTC the February 2022 range ends at 2022-02-28T23:59:59.999. *)
Lemma month_range_covers_month_witness :
  exists r next_start,
    month_range utc_world 2022 2 = Return r
    /\ astimezone utc_world (midnight 2022 2 1) = Return (start_date r)
    /\ start_date r = mk_aware (midnight 2022 2 1) 0
    /\ astimezone utc_world (midnight 2022 3 1) = Return next_start
    /\ next_start = mk_aware (midnight 2022 3 1) 0
    /\ instant_us (end_date r) = instant_us next_start - 1000
    /\ aw_utcoffset (end_date r) = aw_utcoffset next_start
    /\ end_date r = mk_aware (last_millisecond 2022 2) 0.
Proof.
  apply (month_range_covers_month utc_world 2022 2 2022 3 0 0);
    try reflexivity; try lia; try discriminate;
    intros u Hu; reflexivity.
Defined.

(** C1 as stated fails for December 9999: the month is valid and its start
    can be built, but the next month is January 10000, which [datetime]
    rejects, so no range is computed and the command ends with
    [ValueError] before any list request. *)
Lemma month_range_december_9999 :
  1 <= 12 <= 12
  /\ datetime_ymd 9999 12 1 = Return (midnight 9999 12 1)
  /\ month_range utc_world 9999 12 = Raise ValueError
  /\ ~ (exists r, month_range utc_world 9999 12 = Return r)
  /\ list_events_for_month utc_world 9999 12 empty_store
     = (empty_store, [TokenRead; Build], Raise ValueError).
Proof.
  assert (H : month_range utc_world 9999 12 = Raise ValueError)
    by (vm_compute; reflexivity).
  repeat split; try lia; try (vm_compute; reflexivity).
  intros [r Hr]. rewrite H in Hr. discriminate.
Qed.

(** January of year 1 gets no range either: to place its midnight on
    the local clock [astimezone] looks a day back, into year 0. *)
Example month_range_january_1 :
  month_range utc_world 1 1 = Raise ValueError
  /\ list_events_for_month utc_world 1 1 empty_store
     = (empty_store, [TokenRead; Build], Raise ValueError).
Proof. split; vm_compute; reflexivity. Qed.

(** Five hours west of UTC, all year round: February 2022 runs from
    midnight of the first to the last millisecond of the 28th, local
    time. *)
Example month_range_west_of_utc :
  exists r,
    month_range (with_zone (fun _ => Return (-18000)) utc_world) 2022 2 = Return r
    /\ aware_isoformat (start_date r) = "2022-02-01T00:00:00-05:00"
    /\ aware_isoformat (end_date r) = "2022-02-28T23:59:59.999000-05:00".
Proof. eexists. split; [vm_compute; reflexivity|]. split; vm_compute; reflexivity. Qed.

(** Where the clocks are put forward at the midnight that starts a month,
    the range does not start with the month.  In Cairo the range of August
    2014 starts at 23:00 on 31 July, an hour before the first instant of
    August (01:00 at UTC+3), and the range of July ends a millisecond
    before that. *)
Example month_range_in_a_gap :
  timestamp (mk_datetime 2014 7 31 22 0 0 0) = 1406844000
  /\ (exists r,
        month_range (with_zone cairo_2014 utc_world) 2014 8 = Return r
        /\ aware_isoformat (start_date r) = "2014-07-31T23:00:00+02:00"
        /\ instant_us (start_date r)
           = instant_us (mk_aware (mk_datetime 2014 8 1 1 0 0 0) 10800)
             - 3600 * US_PER_SECOND)
  /\ (exists r,
        month_range (with_zone cairo_2014 utc_world) 2014 7 = Return r
        /\ aware_isoformat (start_date r) = "2014-07-01T00:00:00+02:00"
        /\ aware_isoformat (end_date r) = "2014-07-31T22:59:59.999000+02:00").
Proof.
  split; [vm_compute; reflexivity|].
  split; eexists; (split; [vm_compute; reflexivity|]);
    split; vm_compute; reflexivity.
Qed.

(** C7, as amended.  [_pretty_print_table] changes the list it is given:
    afterwards the caller's list starts with the header row, followed by
    the rows it held.  Nothing else changes: every other object in the
    store is as before, no object is created, and the events produced are
    prints only. *)
Theorem pretty_print_table_inserts_header w l rs σ :
  objects σ !! l = Some rs ->
  let '(σ', t, _) := _pretty_print_table w l σ in
  objects σ' !! l = Some (header :: rs)
  /\ (forall l', l' <> l -> objects σ' !! l' = objects σ !! l')
  /\ next_ref σ' = next_ref σ
  /\ Forall (fun e => is_print e = true) t.
Proof.
  intros Hl.
  destruct (pretty_print_table_frame w l rs σ Hl) as (t & r & -> & Hprints).
  simpl. repeat split.
  - apply lookup_insert_eq.
  - intros l' Hne. apply lookup_insert_ne. congruence.
  - assumption.
Qed.

Lemma pretty_print_table_inserts_header_witness :
  let '(σ', t, _) :=
    _pretty_print_table utc_world 0%nat (one_list [[Some "2022-10-10"; Some "e1"; Some "Dinner"]]) in
  objects σ' !! 0%nat
  = Some [header; [Some "2022-10-10"; Some "e1"; Some "Dinner"]]
  /\ (forall l', l' <> 0%nat -> objects σ' !! l' = objects (one_list [[Some "2022-10-10"; Some "e1"; Some "Dinner"]]) !! l')
  /\ next_ref σ' = 1%nat
  /\ Forall (fun e => is_print e = true) t.
Proof.
  apply (pretty_print_table_inserts_header utc_world 0%nat
           [[Some "2022-10-10"; Some "e1"; Some "Dinner"]]
           (one_list [[Some "2022-10-10"; Some "e1"; Some "Dinner"]])).
  reflexivity.
Defined.

(** C7 as stated fails: after printing an empty row sequence the caller's
    list is no longer empty, it holds the header row. *)
Lemma pretty_print_table_mutates_argument :
  let '(σ', _, _) := _pretty_print_table utc_world 0%nat (one_list []) in
  objects (one_list []) !! 0%nat = Some []
  /\ objects σ' !! 0%nat = Some [header]
  /\ objects σ' !! 0%nat <> objects (one_list []) !! 0%nat.
Proof.
  rewrite (pretty_print_table_run utc_world 0%nat [] (one_list []) eq_refl
             (List.Forall_nil _)).
  cbn [objects one_list]. rewrite lookup_insert_eq, lookup_singleton_eq.
  repeat split. discriminate.
Qed.

(** C8.  For every sequence of (start, id, title) rows,
    [_pretty_print_table] returns without raising and prints the table
    whose field names are the fixed header and whose rows are the given
    ones; for the empty sequence that is the table of the header alone. *)
Theorem pretty_print_table_never_raises w l rs σ :
  objects σ !! l = Some rs ->
  Forall triple rs ->
  exists σ',
    _pretty_print_table w l σ
    = (σ', [Stdout (get_string w [Some "start"; Some "id"; Some "title"] rs)],
       Return tt).
Proof.
  intros Hl Hrs. eexists. apply (pretty_print_table_run w l rs σ Hl Hrs).
Qed.

Lemma pretty_print_table_never_raises_witness :
  exists σ',
    _pretty_print_table utc_world 0%nat (one_list [])
    = (σ', [Stdout (get_string utc_world [Some "start"; Some "id"; Some "title"] [])],
       Return tt).
Proof.
  apply (pretty_print_table_never_raises utc_world 0%nat [] (one_list [])).
  - reflexivity.
  - constructor.
Defined.

Example header_only_table :
  get_string utc_world header [] = "| start | id | title |".
Proof. reflexivity. Qed.

(** * Further properties *)

(** ** More about obtaining the service *)

(** Splits a hypothesis [l = pre ++ x :: post] over a trace [l] of known
    length. *)
Ltac split_trace H pre :=
  repeat (destruct pre as [|? pre]; simpl in H;
          [try discriminate H | first [discriminate H | injection H as <- H]]).

(** X1.  [_create_service] leaves the object store as it was, and all it
    does is set-up: reading, refreshing or writing the token, the consent
    flow, building the service, printing.  The only calls that leave the
    machine are the refresh, the consent flow and the build. *)
Theorem create_service_only_sets_up w σ :
  let '(σ', t, _) := _create_service w σ in
  σ' = σ
  /\ Forall (fun e => is_setup e = true) t
  /\ (forall e, In e t -> is_network_call e = true ->
      e = TokenRefresh \/ e = Consent \/ e = Build).
Proof.
  destruct (create_service_shape w σ) as (t & r & -> & Hsetup & _).
  repeat split; trivial.
  intros e Hin Hnet. apply (setup_In _ _ Hsetup) in Hin.
  destruct e; simpl in *; try discriminate; auto.
Qed.

(** Follows [_create_service] through every answer of the world. *)
Ltac service_step w :=
  match goal with
  | |- context [token_json w] => destruct (token_json w) as [[?|?]|] eqn:?
  | |- context [valid ?c] => destruct (valid c) eqn:?
  | |- context [expired ?c] => destruct (expired c) eqn:?
  | |- context [refresh_token ?c] => destruct (refresh_token c) eqn:?
  | |- context [refresh w] => destruct (refresh w) as [[]|?] eqn:?
  | |- context [run_local_server w] =>
      destruct (run_local_server w) as [[]|?] eqn:?
  | |- context [token_write w] => destruct (token_write w) as [[]|?] eqn:?
  | |- context [build w] => destruct (build w) as [[]|[]] eqn:?
  end; simpl.

Ltac service_cases w := unfold _create_service; run; repeat service_step w.

(** X2.  With a token file that holds valid credentials,
    [_create_service] reads the token and builds the service at once: no
    refresh, no consent flow, no write of [token.json].  After the build
    there is at most the printed error. *)
Theorem valid_token_goes_straight_to_build w σ c :
  token_json w = Some (Return c) ->
  valid c = true ->
  exists t' r,
    _create_service w σ = (σ, TokenRead :: Build :: t', r)
    /\ Forall (fun e => is_print e = true) t'.
Proof.
  intros Htok Hvalid. unfold _create_service. run.
  rewrite Htok. simpl. rewrite Hvalid. simpl.
  destruct (build w) as [[]|[]]; simpl;
    eexists _, _; (split; [reflexivity|]); repeat constructor.
Qed.

Lemma valid_token_goes_straight_to_build_witness :
  exists t' r,
    _create_service utc_world empty_store
    = (empty_store, TokenRead :: Build :: t', r)
    /\ Forall (fun e => is_print e = true) t'.
Proof.
  apply (valid_token_goes_straight_to_build utc_world empty_store
           (mk_credentials true false true)); reflexivity.
Defined.

(** X3.  In every run of [_create_service], [token.json] is written only
    directly after the consent flow.  A run that refreshes the token
    neither runs the consent flow nor writes the file: refreshed
    credentials are not saved. *)
Theorem token_written_only_after_consent w σ :
  let '(_, t, _) := _create_service w σ in
  (forall pre post,
      t = pre ++ TokenWrite :: post -> exists pre', pre = pre' ++ [Consent])
  /\ (In TokenRefresh t -> ~ In TokenWrite t /\ ~ In Consent t).
Proof.
  service_cases w;
    (split;
     [ intros pre post H; split_trace H pre; eexists; prefix
     | intros Hin; simpl in *; intuition discriminate ]).
Qed.

(** X4.  When [_create_service] ends with an exception it has printed
    nothing; and if the build was reached, the exception is the one
    [build] raised and it is not an [HttpError], since those are caught. *)
Theorem create_service_raises_quietly w σ σ' t e :
  _create_service w σ = (σ', t, Raise e) ->
  (forall text, ~ In (Stdout text) t)
  /\ (In Build t -> build w = Raise e /\ forall s x, e <> HttpError s x).
Proof.
  revert σ' t e. service_cases w; intros σ' t e' Heq;
    try discriminate Heq; injection Heq as <- <- <-;
    (split;
     [ intros line Hin; simpl in Hin; intuition discriminate
     | intros Hin; simpl in Hin;
       first [ solve [exfalso; intuition discriminate]
             | split; [first [reflexivity | assumption]
                      | intros s x; discriminate] ] ]).
Qed.

Lemma create_service_raises_quietly_witness :
  (forall text, ~ In (Stdout text) [TokenRead; Build])
  /\ (In Build [TokenRead; Build] ->
      build (with_build (Raise connection_lost) utc_world) = Raise connection_lost
      /\ forall s x, connection_lost <> HttpError s x).
Proof.
  apply (create_service_raises_quietly
           (with_build (Raise connection_lost) utc_world)
           empty_store empty_store).
  reflexivity.
Defined.

(** ** More about the list commands *)

Lemma event_row_complete e :
  missing_key e = None -> event_row e = Return (row_cells e).
Proof.
  unfold missing_key, event_row, event_start, row_cells.
  destruct (e_start e), (e_id e), (e_summary e); simpl; try discriminate.
  reflexivity.
Qed.

Lemma event_row_missing e k :
  missing_key e = Some k -> event_row e = Raise (KeyError k).
Proof.
  unfold missing_key, event_row, event_start.
  destruct (e_start e), (e_id e), (e_summary e); simpl;
    intros [= <-]; reflexivity.
Qed.

Lemma mapM_event_row_cons e evs :
  mapM event_row (e :: evs)
  = rbind (event_row e) (fun row =>
      rbind (mapM event_row evs) (fun rows => Return (row :: rows))).
Proof. reflexivity. Qed.

Lemma mapM_event_row_complete evs :
  Forall (fun e => missing_key e = None) evs ->
  mapM event_row evs = Return (map row_cells evs).
Proof.
  induction 1 as [|e evs He _ IH]; [reflexivity|].
  rewrite mapM_event_row_cons, (event_row_complete e He), IH. reflexivity.
Qed.

Lemma mapM_event_row_missing good bad rest k :
  Forall (fun e => missing_key e = None) good ->
  missing_key bad = Some k ->
  mapM event_row (good ++ bad :: rest) = Raise (KeyError k).
Proof.
  intros Hgood Hbad.
  induction Hgood as [|e evs He _ IH].
  - simpl app. rewrite mapM_event_row_cons, (event_row_missing bad k Hbad).
    reflexivity.
  - simpl app. rewrite mapM_event_row_cons, (event_row_complete e He), IH.
    reflexivity.
Qed.

Lemma row_cells_triple evs : Forall triple (map row_cells evs).
Proof. induction evs; constructor; [reflexivity | assumption]. Qed.

Section Listing.
Context (w : world).

Lemma show_events_table evs σ :
  evs <> [] ->
  Forall (fun e => missing_key e = None) evs ->
  show_events w evs σ
  = (store_with_new σ (header :: map row_cells evs),
     [Stdout (get_string w header (map row_cells evs))], Return tt).
Proof.
  intros Hne Hok. unfold show_events.
  destruct evs as [|e evs]; [congruence|].
  rewrite (mapM_event_row_complete _ Hok).
  unfold mbind at 1. unfold M_bind, lift.
  unfold mbind at 1. unfold M_bind, new_list.
  rewrite (pretty_print_table_run w (next_ref σ) (map row_cells (e :: evs)));
    [| apply lookup_insert_eq | apply row_cells_triple ].
  unfold store_with_new. cbn [objects next_ref app].
  rewrite insert_insert_eq. reflexivity.
Qed.

Lemma show_events_key_error good bad rest k σ :
  Forall (fun e => missing_key e = None) good ->
  missing_key bad = Some k ->
  show_events w (good ++ bad :: rest) σ = (σ, [], Raise (KeyError k)).
Proof.
  intros Hgood Hbad. unfold show_events.
  rewrite (mapM_event_row_missing good bad rest k Hgood Hbad).
  destruct (good ++ bad :: rest) eqn:E; [destruct good; discriminate|].
  reflexivity.
Qed.

Lemma show_events_prints evs σ :
  exists σ' t r,
    show_events w evs σ = (σ', t, r)
    /\ Forall (fun e => is_print e = true) t.
Proof.
  unfold show_events. destruct evs as [|e evs].
  - eexists _, _, _. split; [reflexivity|]. repeat constructor.
  - destruct (mapM event_row (e :: evs)) as [rows|err].
    + unfold mbind at 1. unfold M_bind, lift.
      unfold mbind at 1. unfold M_bind, new_list.
      destruct (pretty_print_table_frame w (next_ref σ) rows
                  (mk_store (<[next_ref σ := rows]> (objects σ)) (S (next_ref σ))))
        as (t & r & Hrun & Hprints); [apply lookup_insert_eq|].
      rewrite Hrun. eexists _, _, _. split; [reflexivity|]. assumption.
    + eexists _, _, _. split; [reflexivity|]. constructor.
Qed.

End Listing.

Ltac month_ok Hm :=
  match type of Hm with
  | 1 <= ?month <= 12 =>
      replace ((1 <=? month) && (month <=? 12)) with true
        by (symmetry; apply andb_true_iff; lia)
  end.

(** X5.  With a service at hand and a response of one or more events that
    all have start, id and summary, either list command creates one list
    object, prints one table and returns.  The table has one row per
    event, in the order of the response; the start cell is the event's
    [dateTime], or else its [date]. *)
Theorem listing_prints_one_row_per_event w σ σ1 t1 evs :
  _create_service w σ = (σ1, t1, Return (Some Service)) ->
  evs <> [] ->
  Forall (fun e => missing_key e = None) evs ->
  (forall num,
      list_execute w (upcoming_request w num)
      = Return (mk_list_response (Some evs)) ->
      list_upcoming_events w num σ
      = (store_with_new σ1 (header :: map row_cells evs),
         t1 ++ [Stdout (upcoming_banner num);
                EventsList (upcoming_request w num);
                Stdout (get_string w header (map row_cells evs))],
         Return tt))
  /\ (forall year month r,
        1 <= month <= 12 ->
        month_range w year month = Return r ->
        list_execute w (month_request r)
        = Return (mk_list_response (Some evs)) ->
        list_events_for_month w year month σ
        = (store_with_new σ1 (header :: map row_cells evs),
           t1 ++ [Stdout (month_banner r);
                  EventsList (month_request r);
                  Stdout (get_string w header (map row_cells evs))],
           Return tt)).
Proof.
  intros Hcs Hne Hok. split.
  - intros num Hlist. unfold list_upcoming_events.
    rewrite (bind_Return _ _ _ _ _ _ Hcs). run.
    rewrite Hlist. simpl. rewrite (show_events_table w evs σ1 Hne Hok).
    reflexivity.
  - intros year month r Hm Hrange Hlist. unfold list_events_for_month.
    month_ok Hm. simpl. rewrite (bind_Return _ _ _ _ _ _ Hcs). run.
    rewrite Hrange. simpl. rewrite Hlist. simpl.
    rewrite (show_events_table w evs σ1 Hne Hok). reflexivity.
Qed.

(** X6.  With a service at hand, when an event of the response lacks a
    key, either list command fails with [KeyError] for the first missing
    key of the first such event.  The list request has been sent, no table
    is printed and no list object is created. *)
Theorem listing_fails_on_missing_key w σ σ1 t1 good bad rest k :
  _create_service w σ = (σ1, t1, Return (Some Service)) ->
  Forall (fun e => missing_key e = None) good ->
  missing_key bad = Some k ->
  (forall num,
      list_execute w (upcoming_request w num)
      = Return (mk_list_response (Some (good ++ bad :: rest))) ->
      list_upcoming_events w num σ
      = (σ1,
         t1 ++ [Stdout (upcoming_banner num);
                EventsList (upcoming_request w num)],
         Raise (KeyError k)))
  /\ (forall year month r,
        1 <= month <= 12 ->
        month_range w year month = Return r ->
        list_execute w (month_request r)
        = Return (mk_list_response (Some (good ++ bad :: rest))) ->
        list_events_for_month w year month σ
        = (σ1,
           t1 ++ [Stdout (month_banner r); EventsList (month_request r)],
           Raise (KeyError k))).
Proof.
  intros Hcs Hgood Hbad. split.
  - intros num Hlist. unfold list_upcoming_events.
    rewrite (bind_Return _ _ _ _ _ _ Hcs). run.
    rewrite Hlist. simpl.
    rewrite (show_events_key_error w good bad rest k σ1 Hgood Hbad).
    reflexivity.
  - intros year month r Hm Hrange Hlist. unfold list_events_for_month.
    month_ok Hm. simpl. rewrite (bind_Return _ _ _ _ _ _ Hcs). run.
    rewrite Hrange. simpl. rewrite Hlist. simpl.
    rewrite (show_events_key_error w good bad rest k σ1 Hgood Hbad).
    reflexivity.
Qed.

(** X7.  With a service at hand, when the list request raises, either
    list command catches an [HttpError], prints it and returns, and lets
    any other exception leave the command with nothing printed after the
    banner.  In both cases the request was sent once. *)
Theorem listing_catches_only_HttpError w σ σ1 t1 e :
  _create_service w σ = (σ1, t1, Return (Some Service)) ->
  (forall num,
      list_execute w (upcoming_request w num) = Raise e ->
      list_upcoming_events w num σ
      = match e with
        | HttpError _ text =>
            (σ1,
             t1 ++ [Stdout (upcoming_banner num);
                    EventsList (upcoming_request w num);
                    Stdout ("An error occurred: " +:+ text)],
             Return tt)
        | _ =>
            (σ1,
             t1 ++ [Stdout (upcoming_banner num);
                    EventsList (upcoming_request w num)],
             Raise e)
        end)
  /\ (forall year month r,
        1 <= month <= 12 ->
        month_range w year month = Return r ->
        list_execute w (month_request r) = Raise e ->
        list_events_for_month w year month σ
        = match e with
          | HttpError _ text =>
              (σ1,
               t1 ++ [Stdout (month_banner r);
                      EventsList (month_request r);
                      Stdout ("An error occurred: " +:+ text)],
               Return tt)
          | _ =>
              (σ1,
               t1 ++ [Stdout (month_banner r); EventsList (month_request r)],
               Raise e)
          end).
Proof.
  intros Hcs. split.
  - intros num Hlist. unfold list_upcoming_events.
    rewrite (bind_Return _ _ _ _ _ _ Hcs). run.
    rewrite Hlist. destruct e; reflexivity.
  - intros year month r Hm Hrange Hlist. unfold list_events_for_month.
    month_ok Hm. simpl. rewrite (bind_Return _ _ _ _ _ _ Hcs). run.
    rewrite Hrange. simpl. rewrite Hlist. destruct e; reflexivity.
Qed.

Lemma prints_are_listing t :
  Forall (fun e => is_print e = true) t ->
  Forall (fun e => is_listing e = true) t /\ list_requests t = 0%nat.
Proof.
  unfold list_requests.
  induction 1 as [|e t He _ [IH1 IH2]]; [split; [constructor | reflexivity]|].
  destruct e; try discriminate He. split; [constructor; [reflexivity | assumption]|].
  simpl. assumption.
Qed.

Lemma setup_is_listing t :
  Forall (fun e => is_setup e = true) t ->
  Forall (fun e => is_listing e = true) t /\ list_requests t = 0%nat.
Proof.
  unfold list_requests, is_listing.
  induction 1 as [|e t He _ [IH1 IH2]]; [split; [constructor | reflexivity]|].
  split; [constructor; [rewrite He; reflexivity | assumption]|].
  destruct e; try discriminate He; simpl; assumption.
Qed.

Lemma listing_app t u n m :
  Forall (fun e => is_listing e = true) t /\ list_requests t = n ->
  Forall (fun e => is_listing e = true) u /\ list_requests u = m ->
  Forall (fun e => is_listing e = true) (t ++ u)
  /\ list_requests (t ++ u) = (n + m)%nat.
Proof.
  intros [Ht <-] [Hu <-]. split.
  - apply List.Forall_app. split; assumption.
  - unfold list_requests. rewrite List.filter_app, List.length_app. reflexivity.
Qed.

Lemma listing_cons x t n :
  is_listing x = true ->
  Forall (fun e => is_listing e = true) t /\ list_requests t = n ->
  Forall (fun e => is_listing e = true) (x :: t)
  /\ list_requests (x :: t) = ((if is_list_request x then 1 else 0) + n)%nat.
Proof.
  intros Hx [Ht <-]. split; [constructor; assumption|].
  unfold list_requests. simpl. destruct (is_list_request x); reflexivity.
Qed.

Ltac listing_trace :=
  repeat match goal with
         | |- Forall _ (_ ++ _) /\ _ => eapply listing_app
         | H : Forall (fun e => is_setup e = true) ?t
           |- Forall _ ?t /\ _ => apply (setup_is_listing t H)
         | H : Forall (fun e => is_print e = true) ?t
           |- Forall _ ?t /\ _ => apply (prints_are_listing t H)
         | |- Forall _ [] /\ _ => split; [constructor | reflexivity]
         | |- Forall _ (_ :: _) /\ _ =>
             eapply listing_cons; [reflexivity|]
         end.

Lemma listing_bound t n :
  Forall (fun e => is_listing e = true) t /\ list_requests t = n ->
  (n <= 1)%nat ->
  Forall (fun e => is_listing e = true) t /\ (list_requests t <= 1)%nat.
Proof. intros [H <-] Hn. split; assumption. Qed.

(** X8.  In every run, for every world, a list command does nothing but
    set up the service, print, and send list requests, and it sends at
    most one list request: it never sends an insert, get or delete
    request and never prompts. *)
Theorem list_commands_only_read w σ :
  (forall num,
      let '(_, t, _) := list_upcoming_events w num σ in
      Forall (fun e => is_listing e = true) t /\ (list_requests t <= 1)%nat)
  /\ (forall year month,
        let '(_, t, _) := list_events_for_month w year month σ in
        Forall (fun e => is_listing e = true) t /\ (list_requests t <= 1)%nat).
Proof.
  destruct (create_service_shape w σ) as (t1 & r1 & Hcs & Hsetup & _).
  split.
  - intros num. unfold list_upcoming_events.
    destruct r1 as [svc|e1];
      [rewrite (bind_Return _ _ _ _ _ _ Hcs)
      | rewrite (bind_Raise _ _ _ _ _ _ Hcs);
        eapply listing_bound; [listing_trace | unfold list_requests; simpl; lia]].
    run. destruct svc as [[]|]; simpl;
      [| eapply listing_bound; [listing_trace | unfold list_requests; simpl; lia]].
    destruct (list_execute w _) as [resp|e]; simpl.
    + destruct (show_events_prints w (default [] (items resp)) σ)
        as (σ2 & t2 & r2 & Hshow & Hprints).
      rewrite Hshow. destruct r2 as [[]|[]]; simpl;
        (eapply listing_bound; [listing_trace | unfold list_requests; simpl; lia]).
    + destruct e; simpl; (eapply listing_bound; [listing_trace | unfold list_requests; simpl; lia]).
  - intros year month. unfold list_events_for_month.
    destruct (negb _); [eapply listing_bound; [listing_trace | unfold list_requests; simpl; lia]|].
    destruct r1 as [svc|e1];
      [rewrite (bind_Return _ _ _ _ _ _ Hcs)
      | rewrite (bind_Raise _ _ _ _ _ _ Hcs);
        eapply listing_bound; [listing_trace | unfold list_requests; simpl; lia]].
    run. destruct (month_range w year month) as [r|e]; simpl;
      [| destruct e; simpl; (eapply listing_bound; [listing_trace | unfold list_requests; simpl; lia])].
    destruct svc as [[]|]; simpl;
      [| eapply listing_bound; [listing_trace | unfold list_requests; simpl; lia]].
    destruct (list_execute w _) as [resp|e]; simpl.
    + destruct (show_events_prints w (default [] (items resp)) σ)
        as (σ2 & t2 & r2 & Hshow & Hprints).
      rewrite Hshow. destruct r2 as [[]|[]]; simpl;
        (eapply listing_bound; [listing_trace | unfold list_requests; simpl; lia]).
    + destruct e; simpl; (eapply listing_bound; [listing_trace | unfold list_requests; simpl; lia]).
Qed.

(** ** More about adding and deleting *)

(** X10.  When both dates parse and the insert request raises, the
    exception leaves [add_event] whatever it is; the request was sent once
    and nothing is printed. *)
Theorem add_event_insert_failure_escapes w title s e tz loc desc start end_ σ σ1 t1 err :
  _create_service w σ = (σ1, t1, Return (Some Service)) ->
  Strptime.strptime s = Return start ->
  Strptime.strptime e = Return end_ ->
  insert_execute w
    (mk_body title loc desc (mk_time (isoformat start) tz)
       (mk_time (isoformat end_) tz) []) = Raise err ->
  add_event w title s e tz loc desc σ
  = (σ1,
     t1 ++ [EventsInsert
              (mk_body title loc desc (mk_time (isoformat start) tz)
                 (mk_time (isoformat end_) tz) [])],
     Raise err).
Proof.
  intros Hcs Hs He Hins.
  exact (add_event_propagates w title s e tz loc desc start end_ σ σ1 t1 err
           Hcs Hs He Hins).
Qed.

Lemma describe_without_summary fetched :
  e_summary fetched = None ->
  describe fetched
  = Raise (KeyError (match e_start fetched with
                     | None => "start"
                     | Some _ => "summary"
                     end)).
Proof.
  intros Hs. unfold describe, event_start.
  destruct (e_start fetched); simpl; [rewrite Hs|]; reflexivity.
Qed.

(** X14.  An event without a ['summary'] key cannot be deleted: after the
    get request [delete_event] fails with [KeyError] while building the
    prompt, before any confirmation and before any delete request. *)
Theorem delete_event_needs_a_summary w id fetched σ σ1 t1 :
  _create_service w σ = (σ1, t1, Return (Some Service)) ->
  get_execute w id = Return fetched ->
  e_summary fetched = None ->
  delete_event w id σ
  = (σ1, t1 ++ [EventsGet id],
     Raise (KeyError (match e_start fetched with
                      | None => "start"
                      | Some _ => "summary"
                      end))).
Proof.
  intros Hcs Hget Hs. unfold delete_event.
  rewrite (bind_Return _ _ _ _ _ _ Hcs). run.
  rewrite Hget. simpl. rewrite (describe_without_summary fetched Hs).
  reflexivity.
Qed.

(** X15.  When the user has confirmed and the delete request raises, the
    exception leaves [delete_event] and the success line is not printed. *)
Theorem delete_event_failed_delete_is_not_reported w id fetched what err σ σ1 t1 :
  _create_service w σ = (σ1, t1, Return (Some Service)) ->
  get_execute w id = Return fetched ->
  describe fetched = Return what ->
  confirm w (delete_prompt what) = Return true ->
  delete_execute w id = Raise err ->
  delete_event w id σ
  = (σ1,
     t1 ++ [EventsGet id; Confirm (delete_prompt what) (Return true);
            EventsDelete id],
     Raise err).
Proof.
  intros Hcs Hget Hwhat Hyes Hdel. unfold delete_event.
  rewrite (bind_Return _ _ _ _ _ _ Hcs). run.
  rewrite Hget. simpl. rewrite Hwhat. simpl.
  unfold delete_prompt in Hyes. rewrite Hyes. simpl.
  rewrite Hdel. reflexivity.
Qed.

(** X16.  In every run, for every world, [delete_event] leaves the object
    store as it was, sends get and delete requests for its own id only, a
    delete only after the get, and never an insert or a list request. *)
Theorem delete_event_touches_only_its_id w id σ :
  let '(σ', t, _) := delete_event w id σ in
  σ' = σ
  /\ (forall id', In (EventsDelete id') t -> id' = id /\ In (EventsGet id) t)
  /\ (forall id', In (EventsGet id') t -> id' = id)
  /\ (forall body, ~ In (EventsInsert body) t)
  /\ (forall req, ~ In (EventsList req) t).
Proof.
  destruct (delete_event_runs w id σ) as (t1 & tail & r & -> & Hsetup & Hrun).
  split; [reflexivity|].
  assert (Hin : forall x, is_setup x = false -> In x (t1 ++ tail) -> In x tail).
  { intros x Hx Hi. apply in_app_or in Hi as [Hi|Hi]; [|exact Hi].
    apply (setup_In _ _ Hsetup) in Hi. congruence. }
  split; [|split; [|split]].
  - intros id' H. apply Hin in H; [|reflexivity].
    split; [|apply in_or_app; right];
      inversion Hrun; subst; simpl in H; simpl; intuition congruence.
  - intros id' H. apply Hin in H; [|reflexivity].
    inversion Hrun; subst; simpl in H; intuition congruence.
  - intros body H. apply Hin in H; [|reflexivity].
    inversion Hrun; subst; simpl in H; intuition congruence.
  - intros req H. apply Hin in H; [|reflexivity].
    inversion Hrun; subst; simpl in H; intuition congruence.
Qed.

(** ** More about the table *)

Lemma add_rows_wrong_length names rs : forall acc,
  length names = 3%nat ->
  Exists (fun r : list cell => length r <> 3%nat) rs ->
  add_rows (mk_table names acc) rs = Raise ValueError.
Proof.
  induction rs as [|r rs IH]; intros acc Hnames Hbad.
  - inversion Hbad.
  - simpl. unfold add_row. simpl. rewrite Hnames. simpl.
    destruct (Nat.eqb (length r) 3) eqn:E; simpl.
    + apply IH; [assumption|].
      inversion Hbad as [? ? Hr|? ? Hrest]; subst; [|assumption].
      apply Nat.eqb_eq in E. contradiction.
    + reflexivity.
Qed.

(** X17.  When a row does not have three cells, [_pretty_print_table]
    fails with [ValueError] and prints nothing; the header has already
    been inserted into the caller's list. *)
Theorem pretty_print_table_rejects_short_row w l rs σ :
  objects σ !! l = Some rs ->
  Exists (fun r : list cell => length r <> 3%nat) rs ->
  _pretty_print_table w l σ
  = (mk_store (<[l := header :: rs]> (objects σ)) (next_ref σ), [],
     Raise ValueError).
Proof.
  intros Hl Hbad.
  unfold _pretty_print_table, mbind, M_bind, list_insert_0, read_list.
  rewrite Hl. simpl. rewrite lookup_insert_eq. simpl.
  unfold lift. simpl.
  rewrite (add_rows_wrong_length header rs [] eq_refl Hbad). reflexivity.
Qed.

(** X18.  Printing the same list twice prints the header as the first
    data row of the second table, and leaves the list with two header
    rows in front. *)
Theorem pretty_print_table_twice_repeats_header w l rs σ :
  objects σ !! l = Some rs ->
  Forall triple rs ->
  (_pretty_print_table w l ≫= fun _ => _pretty_print_table w l) σ
  = (mk_store (<[l := header :: header :: rs]> (objects σ)) (next_ref σ),
     [Stdout (get_string w header rs);
      Stdout (get_string w header (header :: rs))],
     Return tt).
Proof.
  intros Hl Hrs.
  rewrite (bind_Return _ _ _ _ _ _ (pretty_print_table_run w l rs σ Hl Hrs)).
  rewrite (pretty_print_table_run w l (header :: rs));
    [| apply lookup_insert_eq | constructor; [reflexivity | assumption] ].
  cbn [objects next_ref app]. rewrite insert_insert_eq. reflexivity.
Qed.

(** ** More about the month range *)

Lemma days_in_month_bounds y m :
  1 <= m <= 12 -> 28 <= _days_in_month y m <= 31.
Proof.
  intros Hm. unfold _days_in_month.
  assert (Hcases : m = 1 \/ m = 2 \/ m = 3 \/ m = 4 \/ m = 5 \/ m = 6
                   \/ m = 7 \/ m = 8 \/ m = 9 \/ m = 10 \/ m = 11
                   \/ m = 12) by lia.
  destruct (_is_leap y);
    repeat (destruct Hcases as [->|Hcases]; [vm_compute; intuition discriminate|]);
    subst m; vm_compute; intuition discriminate.
Qed.

Lemma month_range_value w year month ny nm off_s off_e :
  1 <= month <= 12 ->
  1 <= year <= 9999 ->
  (year, month) <> (1, 1) ->
  (year, month) <> (9999, 12) ->
  spec_next_month year month = (ny, nm) ->
  steady w (midnight year month 1) off_s ->
  -86400 < off_s < 86400 ->
  steady w (midnight ny nm 1) off_e ->
  -86400 < off_e < 86400 ->
  month_range w year month
  = Return (mk_range (mk_aware (midnight year month 1) off_s)
              (mk_aware (last_millisecond year month) off_e)).
Proof.
  intros Hm Hy Hmin Hmax Hnext Htz_s Hoff_s Htz_e Hoff_e.
  assert (Hcode : (if month <? 12 then (year, month + 1) else (year + 1, 1))
                  = (ny, nm)).
  { rewrite <- Hnext. unfold spec_next_month.
    destruct (month <? 12) eqn:E1, (month =? 12) eqn:E2; try reflexivity.
    - apply Z.ltb_lt in E1. apply Z.eqb_eq in E2. lia.
    - apply Z.ltb_ge in E1. apply Z.eqb_neq in E2. lia. }
  assert (Hn : 1 <= ny <= 9999 /\ 1 <= nm <= 12 /\ (ny, nm) <> (1, 1)).
  { unfold spec_next_month in Hnext.
    destruct (month =? 12) eqn:E; injection Hnext as <- <-.
    - apply Z.eqb_eq in E. subst month.
      assert (year <> 9999) by (intros ->; apply Hmax; reflexivity).
      repeat split; try lia. intros [= H1]. lia.
    - apply Z.eqb_neq in E. repeat split; try lia. intros [= H1 H2]. lia. }
  destruct Hn as (Hny & Hnm & Hnot_first).
  destruct (millisecond_before_first year month ny nm Hy Hm Hmax Hnext)
    as [Hsub _].
  unfold month_range.
  rewrite (datetime_ymd_valid year month Hy Hm). simpl.
  fold (midnight year month 1).
  rewrite (astimezone_first_of_month w year month off_s Hy Hm Hmin Htz_s Hoff_s).
  simpl. rewrite Hcode.
  rewrite (datetime_ymd_valid ny nm Hny Hnm). simpl.
  fold (midnight ny nm 1).
  rewrite (astimezone_first_of_month w ny nm off_e Hny Hnm Hnot_first Htz_e Hoff_e).
  simpl. unfold aware_sub. simpl. rewrite Hsub. reflexivity.
Qed.

Lemma ymd2ord_day y m d : _ymd2ord y m d = _ymd2ord y m 1 + (d - 1).
Proof. unfold _ymd2ord. lia. Qed.

(** X21.  Where the local clock is steady around both month starts, the
    range of a month is as long as the month: from start to end there are
    the days of the month minus one millisecond, corrected by the
    difference of the two UTC offsets; the start is before the end. *)
Theorem month_range_spans_the_month w year month ny nm off_s off_e r :
  1 <= month <= 12 ->
  1 <= year <= 9999 ->
  (year, month) <> (1, 1) ->
  (year, month) <> (9999, 12) ->
  spec_next_month year month = (ny, nm) ->
  steady w (midnight year month 1) off_s ->
  -86400 < off_s < 86400 ->
  steady w (midnight ny nm 1) off_e ->
  -86400 < off_e < 86400 ->
  month_range w year month = Return r ->
  instant_us (end_date r) - instant_us (start_date r)
  = _days_in_month year month * US_PER_DAY - 1000
    + (off_s - off_e) * US_PER_SECOND
  /\ instant_us (start_date r) < instant_us (end_date r).
Proof.
  intros Hm Hy Hmin Hmax Hnext Htz_s Hoff_s Htz_e Hoff_e Hr.
  rewrite (month_range_value w year month ny nm off_s off_e
             Hm Hy Hmin Hmax Hnext Htz_s Hoff_s Htz_e Hoff_e) in Hr.
  injection Hr as <-.
  pose proof (days_in_month_bounds year month Hm) as Hdim.
  unfold instant_us, wall_us, toordinal, last_millisecond, midnight,
    timedelta_seconds, US_PER_DAY, US_PER_SECOND.
  cbn [start_date end_date aw_wall aw_utcoffset dt_year dt_month dt_day
       dt_hour dt_minute dt_second dt_microsecond].
  rewrite (ymd2ord_day year month (_days_in_month year month)).
  split; lia.
Qed.

Lemma month_range_start w year month r :
  month_range w year month = Return r ->
  rbind (datetime_ymd year month 1) (astimezone w) = Return (start_date r).
Proof.
  unfold month_range.
  destruct (rbind (datetime_ymd year month 1) (astimezone w)) as [s|];
    simpl; [|discriminate].
  destruct (if month <? 12 then _ else _) as [y' m'].
  destruct (rbind (datetime_ymd y' m' 1) (astimezone w)) as [first|];
    simpl; [|discriminate].
  destruct (aware_sub first _) as [e|]; simpl; [|discriminate].
  intros [= <-]. reflexivity.
Qed.

Lemma month_range_end w year month ny nm r :
  1 <= month <= 12 ->
  spec_next_month year month = (ny, nm) ->
  month_range w year month = Return r ->
  exists first,
    rbind (datetime_ymd ny nm 1) (astimezone w) = Return first
    /\ aware_sub first (timedelta_milliseconds 1) = Return (end_date r).
Proof.
  intros Hm Hnext. unfold month_range.
  assert (Hcode : (if month <? 12 then (year, month + 1) else (year + 1, 1))
                  = (ny, nm)).
  { rewrite <- Hnext. unfold spec_next_month.
    destruct (month <? 12) eqn:E1, (month =? 12) eqn:E2; try reflexivity.
    - apply Z.ltb_lt in E1. apply Z.eqb_eq in E2. lia.
    - apply Z.ltb_ge in E1. apply Z.eqb_neq in E2. lia. }
  destruct (rbind (datetime_ymd year month 1) (astimezone w)) as [s|];
    simpl; [|discriminate].
  rewrite Hcode.
  destruct (rbind (datetime_ymd ny nm 1) (astimezone w)) as [first|];
    simpl; [|discriminate].
  destruct (aware_sub first _) as [e|] eqn:Hsub; simpl; [|discriminate].
  intros [= <-]. exists first. split; [reflexivity | exact Hsub].
Qed.

(** X19.  The ranges of two consecutive months meet, whatever the local
    time zone does: the end of a month's range is the start of the next
    month's range minus one millisecond, as dates and as instants on the
    time line. *)
Theorem consecutive_month_ranges_meet w year month ny nm r r' :
  1 <= month <= 12 ->
  spec_next_month year month = (ny, nm) ->
  month_range w year month = Return r ->
  month_range w ny nm = Return r' ->
  aware_sub (start_date r') (timedelta_milliseconds 1) = Return (end_date r)
  /\ instant_us (start_date r') = instant_us (end_date r) + 1000.
Proof.
  intros Hm Hnext Hr Hr'.
  destruct (month_range_end w year month ny nm r Hm Hnext Hr)
    as (first & Hfirst & Hsub).
  pose proof (month_range_start w ny nm r' Hr') as Hstart.
  rewrite Hfirst in Hstart. injection Hstart as ->.
  split; [exact Hsub|].
  unfold aware_sub, datetime_sub in Hsub.
  destruct (datetime_add (aw_wall (start_date r')) _) as [wall|] eqn:Hadd;
    simpl in Hsub; [|discriminate].
  injection Hsub as <-.
  apply datetime_add_wall in Hadd.
  unfold instant_us. cbn [aw_wall aw_utcoffset]. rewrite Hadd.
  unfold timedelta_milliseconds. lia.
Qed.

(** X20.  A year outside 1..9999 is not checked before the service is
    requested: [list_events_for_month] obtains the service and then fails
    in the [datetime] constructor, with [ValueError] when the year fits a
    C [int] and with [OverflowError] when it does not, without printing
    the banner and without a list request. *)
Theorem list_events_for_month_bad_year w year month σ σ1 t1 svc :
  _create_service w σ = (σ1, t1, Return svc) ->
  1 <= month <= 12 ->
  year < 1 \/ 9999 < year ->
  list_events_for_month w year month σ
  = (σ1, t1, Raise (if fits_int year then ValueError else OverflowError)).
Proof.
  intros Hcs Hm Hy. unfold list_events_for_month.
  month_ok Hm. simpl. rewrite (bind_Return _ _ _ _ _ _ Hcs). run.
  unfold month_range, datetime_ymd, MINYEAR, MAXYEAR.
  rewrite (fits_int_true month), (fits_int_true 1) by lia.
  replace ((1 <=? year) && (year <=? 9999)) with false
    by (symmetry; apply andb_false_iff; lia).
  destruct (fits_int year); simpl; rewrite app_nil_r; reflexivity.
Qed.

(** X22.  When obtaining the service raises, every command ends with
    that exception and does nothing more.  This includes an [HttpError]
    in the list commands, whose handler covers only the code after
    [_create_service]. *)
Theorem setup_failure_leaves_every_command w σ σ1 t1 err :
  _create_service w σ = (σ1, t1, Raise err) ->
  (forall num, list_upcoming_events w num σ = (σ1, t1, Raise err))
  /\ (forall year month,
        1 <= month <= 12 ->
        list_events_for_month w year month σ = (σ1, t1, Raise err))
  /\ (forall title s e tz loc desc,
        add_event w title s e tz loc desc σ = (σ1, t1, Raise err))
  /\ (forall id, delete_event w id σ = (σ1, t1, Raise err)).
Proof.
  intros Hcs. repeat split.
  - intros num. unfold list_upcoming_events.
    apply (bind_Raise _ _ _ _ _ _ Hcs).
  - intros year month Hm. unfold list_events_for_month.
    month_ok Hm. simpl. apply (bind_Raise _ _ _ _ _ _ Hcs).
  - intros title s e tz loc desc. unfold add_event.
    apply (bind_Raise _ _ _ _ _ _ Hcs).
  - intros id. unfold delete_event. apply (bind_Raise _ _ _ _ _ _ Hcs).
Qed.

(** ** The date parser *)

Module StrptimeFacts.
Import Strptime.

Lemma yields_pure {A} (P : A -> Prop) a : P a -> yields P (pure a).
Proof. intros Ha s. repeat constructor. exact Ha. Qed.

Lemma yields_andthen {A B} (P : A -> Prop) (Q : B -> Prop) p k :
  yields P p -> (forall a, P a -> yields Q (k a)) -> yields Q (andthen p k).
Proof.
  intros Hp Hk s. unfold andthen.
  specialize (Hp s). induction Hp as [|[a rest] l Ha _ IH]; simpl.
  - constructor.
  - apply List.Forall_app. split; [apply (Hk a Ha) | exact IH].
Qed.

Lemma yields_orelse {A} (P : A -> Prop) p q :
  yields P p -> yields P q -> yields P (orelse p q).
Proof. intros Hp Hq s. apply List.Forall_app. split; [apply Hp | apply Hq]. Qed.

Lemma yields_weaken {A} (P Q : A -> Prop) p :
  (forall a, P a -> Q a) -> yields P p -> yields Q p.
Proof.
  intros HPQ Hp s. eapply List.Forall_impl; [|apply Hp].
  intros c. apply HPQ.
Qed.

Lemma yields_cls lo hi : yields (fun v => lo - 48 <= v <= hi - 48) (cls lo hi).
Proof.
  intros [|c rest]; simpl; [constructor|].
  unfold between. destruct (lo <=? code c) eqn:E1; simpl; [|constructor].
  destruct (code c <=? hi) eqn:E2; [|constructor].
  repeat constructor; simpl; unfold digit_value; lia.
Qed.

Lemma yields_two a b la ha lb hb :
  yields (fun v => la <= v <= ha) a ->
  yields (fun v => lb <= v <= hb) b ->
  yields (fun v => 10 * la + lb <= v <= 10 * ha + hb) (two a b).
Proof.
  intros Ha Hb. unfold two.
  eapply yields_andthen; [exact Ha|]. intros x Hx.
  eapply yields_andthen; [exact Hb|]. intros y Hy.
  apply yields_pure. cbv beta in *. lia.
Qed.

Lemma yields_any {A} (p : parser A) : yields (fun _ => True) p.
Proof. intros s. apply List.Forall_forall. trivial. Qed.

Ltac digits :=
  eapply yields_weaken;
  [| first [ eapply yields_two; apply yields_cls | apply yields_cls ] ];
  simpl; intros; lia.

Lemma re_H_range : yields (fun v => 0 <= v <= 23) re_H.
Proof. unfold re_H, d0_9. repeat apply yields_orelse; digits. Qed.

Lemma re_M_range : yields (fun v => 0 <= v <= 59) re_M.
Proof. unfold re_M, d0_9. repeat apply yields_orelse; digits. Qed.

Lemma re_m_range : yields (fun v => 1 <= v <= 12) re_m.
Proof. unfold re_m, d1_9. repeat apply yields_orelse; digits. Qed.

Lemma re_d_range : yields (fun v => 1 <= v <= 31) re_d.
Proof.
  unfold re_d, d0_9, d1_9. repeat apply yields_orelse; try digits.
  eapply yields_andthen; [apply yields_any|]. intros _ _. digits.
Qed.

Lemma re_Y_range : yields (fun v => 0 <= v <= 9999) re_Y.
Proof.
  unfold re_Y, d0_9.
  eapply yields_andthen; [eapply yields_two; apply yields_cls|]. intros hi Hhi.
  eapply yields_andthen; [eapply yields_two; apply yields_cls|]. intros lo Hlo.
  apply yields_pure. cbv beta in *. lia.
Qed.

Lemma format_regex_range :
  yields (fun '(Y, m, d, H, M) =>
            0 <= Y <= 9999 /\ 1 <= m <= 12 /\ 1 <= d <= 31
            /\ 0 <= H <= 23 /\ 0 <= M <= 59) format_regex.
Proof.
  unfold format_regex.
  eapply yields_andthen; [apply re_Y_range|]. intros Y HY.
  eapply yields_andthen; [apply yields_any|]. intros _ _.
  eapply yields_andthen; [apply re_m_range|]. intros m Hm.
  eapply yields_andthen; [apply yields_any|]. intros _ _.
  eapply yields_andthen; [apply re_d_range|]. intros d Hd.
  eapply yields_andthen; [apply (yields_any re_spaces)|]. intros _ _.
  eapply yields_andthen; [apply re_H_range|]. intros H HH.
  eapply yields_andthen; [apply yields_any|]. intros _ _.
  eapply yields_andthen; [apply re_M_range|]. intros M HM.
  apply yields_pure. cbv beta in *. lia.
Qed.

End StrptimeFacts.

(** The fields the parser reads fit a C [int], so that a failure of
    [strptime] is a [ValueError]: no match, text left over, or a date the
    calendar does not have. *)
Lemma strptime_raises_ValueError s e :
  Strptime.strptime s = Raise e -> e = ValueError.
Proof.
  unfold Strptime.strptime.
  pose proof (StrptimeFacts.format_regex_range (String.list_ascii_of_string s)) as Hr.
  destruct (Strptime.format_regex _) as [|[[[[[Y m] d] H] M] rest] more];
    [intros [= <-]; reflexivity|].
  inversion Hr as [|? ? Hhead _]; subst. simpl in Hhead.
  destruct Hhead as (HY & Hm & Hd & _).
  destruct rest; [|intros [= <-]; reflexivity].
  unfold datetime_ymd.
  rewrite !fits_int_true by lia. cbn [andb negb].
  repeat match goal with
         | |- context [if ?b then _ else _] => destruct b
         end; simpl; intros [= <-]; reflexivity.
Qed.

(** X11.  For date strings of ASCII characters: when the start does not
    parse, or the start parses and the end does not, [add_event] fails
    with [ValueError] after the service has been requested; no insert
    request is sent. *)
Theorem add_event_rejects_bad_dates_after_setup w title s e tz loc desc σ σ1 t1 svc :
  _create_service w σ = (σ1, t1, Return svc) ->
  Strptime.is_ascii s = true ->
  Strptime.is_ascii e = true ->
  (exists err, Strptime.strptime s = Raise err)
  \/ (exists start err,
        Strptime.strptime s = Return start
        /\ Strptime.strptime e = Raise err) ->
  add_event w title s e tz loc desc σ = (σ1, t1, Raise ValueError).
Proof.
  intros Hcs _ _ Hbad.
  apply (add_event_unparseable w title s e tz loc desc σ σ1 t1 svc Hcs).
  destruct Hbad as [[err Hs] | (start & err & Hs & He)].
  - left. rewrite Hs. f_equal. apply (strptime_raises_ValueError s err Hs).
  - right. split; [exists start; exact Hs|].
    rewrite He. f_equal. apply (strptime_raises_ValueError e err He).
Qed.

(** X12.  Whatever string of ASCII characters [strptime] accepts, the
    value it returns is a valid date of the years 1..9999 with hour in
    0..23, minute in 0..59 and zero seconds and microseconds. *)
Theorem strptime_returns_valid_minute s dt :
  Strptime.is_ascii s = true ->
  Strptime.strptime s = Return dt ->
  1 <= dt_year dt <= 9999
  /\ 1 <= dt_month dt <= 12
  /\ 1 <= dt_day dt <= _days_in_month (dt_year dt) (dt_month dt)
  /\ 0 <= dt_hour dt <= 23
  /\ 0 <= dt_minute dt <= 59
  /\ dt_second dt = 0
  /\ dt_microsecond dt = 0.
Proof.
  intros _. unfold Strptime.strptime.
  pose proof (StrptimeFacts.format_regex_range (String.list_ascii_of_string s)) as Hr.
  destruct (Strptime.format_regex _) as [|[[[[[Y m] d] H] M] rest] more];
    [discriminate|].
  inversion Hr as [|? ? Hhead _]; subst. simpl in Hhead.
  destruct Hhead as (HY & Hm & Hd & HH & HM).
  destruct rest; [|discriminate].
  unfold datetime_ymd, MINYEAR, MAXYEAR.
  rewrite !fits_int_true by lia. cbn [andb negb].
  destruct ((1 <=? Y) && (Y <=? 9999)) eqn:EY; simpl; [|discriminate].
  destruct ((1 <=? m) && (m <=? 12)) eqn:Em; simpl; [|discriminate].
  destruct ((1 <=? d) && (d <=? _days_in_month Y m)) eqn:Ed; simpl; [|discriminate].
  intros [= <-]. simpl.
  apply andb_true_iff in EY, Em, Ed. lia.
Qed.

Module Canonical.
Import Strptime.

Lemma code_digit k : 0 <= k <= 9 -> code (digit_char k) = 48 + k.
Proof.
  intros Hk. unfold code, digit_char.
  rewrite Ascii.N_ascii_embedding by lia. lia.
Qed.

Lemma cls_digit lo hi k rest :
  0 <= k <= 9 -> lo <= 48 + k <= hi ->
  cls lo hi (digit_char k :: rest) = [(k, rest)].
Proof.
  intros Hk Hr. unfold cls, between, digit_value. rewrite (code_digit k Hk).
  replace ((lo <=? 48 + k) && (48 + k <=? hi)) with true
    by (symmetry; apply andb_true_iff; lia).
  f_equal. f_equal. lia.
Qed.

Lemma cls_digit_out lo hi k rest :
  0 <= k <= 9 -> 48 + k < lo \/ hi < 48 + k ->
  cls lo hi (digit_char k :: rest) = [].
Proof.
  intros Hk Hr. unfold cls, between. rewrite (code_digit k Hk).
  replace ((lo <=? 48 + k) && (48 + k <=? hi)) with false
    by (symmetry; apply andb_false_iff; lia).
  reflexivity.
Qed.

Lemma first_andthen {A B} (p : parser A) (k : A -> parser B) s a r b r' :
  first_match p s a r -> first_match (k a) r b r' ->
  first_match (andthen p k) s b r'.
Proof.
  intros [more Hp] [more' Hk]. unfold first_match, andthen.
  rewrite Hp. simpl. rewrite Hk. simpl. eexists. reflexivity.
Qed.

Lemma first_pure {A} (a : A) s : first_match (pure a) s a s.
Proof. exists []. reflexivity. Qed.

Lemma first_orelse_l {A} (p q : parser A) s a r :
  first_match p s a r -> first_match (orelse p q) s a r.
Proof. intros [more Hp]. unfold first_match, orelse. rewrite Hp. eexists. reflexivity. Qed.

Lemma first_orelse_r {A} (p q : parser A) s a r :
  p s = [] -> first_match q s a r -> first_match (orelse p q) s a r.
Proof. intros Hp [more Hq]. unfold first_match, orelse. rewrite Hp, Hq. eexists. reflexivity. Qed.

Lemma first_cls lo hi k rest :
  0 <= k <= 9 -> lo <= 48 + k <= hi ->
  first_match (cls lo hi) (digit_char k :: rest) k rest.
Proof. intros Hk Hr. exists []. apply cls_digit; assumption. Qed.

Lemma first_two a b s x r y r' :
  first_match a s x r -> first_match b r y r' ->
  first_match (two a b) s (10 * x + y) r'.
Proof.
  intros Ha Hb. unfold two.
  eapply first_andthen; [exact Ha|].
  eapply first_andthen; [exact Hb|]. apply first_pure.
Qed.

Lemma two_fails a b s : a s = [] -> two a b s = [].
Proof. intros Ha. unfold two, andthen. rewrite Ha. reflexivity. Qed.

Lemma first_lit x c rest :
  code c = x -> first_match (lit x) (c :: rest) tt rest.
Proof.
  intros Hc. exists []. unfold lit. rewrite Hc, Z.eqb_refl. reflexivity.
Qed.

Lemma digit_split n :
  0 <= n <= 99 -> 0 <= n / 10 <= 9 /\ 0 <= n mod 10 <= 9
                  /\ n = 10 * (n / 10) + n mod 10.
Proof.
  intros Hn. pose proof (Z.div_mod n 10 ltac:(lia)).
  pose proof (Z.mod_pos_bound n 10 ltac:(lia)). lia.
Qed.

Ltac digit_goal :=
  match goal with
  | |- first_match (cls _ _) _ _ _ => apply first_cls; lia
  | |- cls _ _ _ = [] => apply cls_digit_out; lia
  | |- two _ _ _ = [] => apply two_fails; apply cls_digit_out; lia
  end.

Lemma first_re_M n rest :
  0 <= n <= 59 -> first_match re_M (two_digits n ++ rest) n rest.
Proof.
  intros Hn. destruct (digit_split n ltac:(lia)) as (Ha & Hb & Hsplit).
  assert (n / 10 <= 5) by lia.
  unfold re_M, d0_9, two_digits. simpl app. rewrite Hsplit at 3.
  apply first_orelse_l. eapply first_two; digit_goal.
Qed.

Lemma first_re_H n rest :
  0 <= n <= 23 -> first_match re_H (two_digits n ++ rest) n rest.
Proof.
  intros Hn. destruct (digit_split n ltac:(lia)) as (Ha & Hb & Hsplit).
  unfold re_H, d0_9, two_digits. simpl app. rewrite Hsplit at 3.
  destruct (Z.eq_dec (n / 10) 2) as [E|E].
  - apply first_orelse_l. eapply first_two; digit_goal.
  - apply first_orelse_r; [digit_goal|].
    apply first_orelse_l. eapply first_two; digit_goal.
Qed.

Lemma first_re_m n rest :
  1 <= n <= 12 -> first_match re_m (two_digits n ++ rest) n rest.
Proof.
  intros Hn. destruct (digit_split n ltac:(lia)) as (Ha & Hb & Hsplit).
  unfold re_m, d1_9, two_digits. simpl app. rewrite Hsplit at 3.
  destruct (Z.eq_dec (n / 10) 1) as [E|E].
  - apply first_orelse_l. eapply first_two; digit_goal.
  - apply first_orelse_r; [digit_goal|].
    apply first_orelse_l. eapply first_two; digit_goal.
Qed.

Lemma first_re_d n rest :
  1 <= n <= 31 -> first_match re_d (two_digits n ++ rest) n rest.
Proof.
  intros Hn. destruct (digit_split n ltac:(lia)) as (Ha & Hb & Hsplit).
  unfold re_d, d0_9, d1_9, two_digits. simpl app. rewrite Hsplit at 3.
  destruct (Z.eq_dec (n / 10) 3) as [E|E].
  - apply first_orelse_l. eapply first_two; digit_goal.
  - apply first_orelse_r; [digit_goal|].
    destruct (Z.eq_dec (n / 10) 0) as [E0|E0].
    + apply first_orelse_r; [digit_goal|].
      apply first_orelse_l. eapply first_two; digit_goal.
    + apply first_orelse_l. eapply first_two; digit_goal.
Qed.

Lemma first_re_Y n rest :
  0 <= n <= 9999 -> first_match re_Y (four_digits n ++ rest) n rest.
Proof.
  intros Hn.
  pose proof (Z.div_mod n 1000 ltac:(lia)).
  pose proof (Z.mod_pos_bound n 1000 ltac:(lia)).
  pose proof (Z.div_mod n 100 ltac:(lia)).
  pose proof (Z.mod_pos_bound n 100 ltac:(lia)).
  pose proof (Z.div_mod n 10 ltac:(lia)).
  pose proof (Z.mod_pos_bound n 10 ltac:(lia)).
  pose proof (Z.div_mod (n / 100) 10 ltac:(lia)).
  pose proof (Z.mod_pos_bound (n / 100) 10 ltac:(lia)).
  pose proof (Z.div_mod (n / 10) 10 ltac:(lia)).
  pose proof (Z.mod_pos_bound (n / 10) 10 ltac:(lia)).
  assert (Hv : n = 100 * (10 * (n / 1000) + (n / 100) mod 10)
                   + (10 * ((n / 10) mod 10) + n mod 10)) by lia.
  unfold re_Y, d0_9, four_digits. simpl app. rewrite Hv at 5.
  eapply first_andthen; [eapply first_two; digit_goal|].
  eapply first_andthen; [eapply first_two; digit_goal|].
  apply first_pure.
Qed.

Lemma first_re_spaces k rest :
  0 <= k <= 9 ->
  first_match re_spaces (space :: digit_char k :: rest) tt
    (digit_char k :: rest).
Proof.
  intros Hk. exists []. unfold re_spaces.
  replace (is_space space) with true by reflexivity.
  unfold is_space at 1, between. rewrite (code_digit k Hk).
  replace ((9 <=? 48 + k) && (48 + k <=? 13)) with false
    by (symmetry; apply andb_false_iff; lia).
  replace ((28 <=? 48 + k) && (48 + k <=? 32)) with false
    by (symmetry; apply andb_false_iff; lia).
  reflexivity.
Qed.

Lemma list_ascii_app a b :
  String.list_ascii_of_string (a +:+ b)
  = String.list_ascii_of_string a ++ String.list_ascii_of_string b.
Proof. induction a as [|c a IH]; simpl; [reflexivity | rewrite IH; reflexivity]. Qed.

Lemma ascii_list_eqb_eq l1 l2 : ascii_list_eqb l1 l2 = true -> l1 = l2.
Proof.
  unfold ascii_list_eqb. intros H. apply String.eqb_eq in H.
  rewrite <- (String.list_ascii_of_string_of_list_ascii l1),
          <- (String.list_ascii_of_string_of_list_ascii l2), H.
  reflexivity.
Qed.

Lemma fmt_d_2_checked :
  forallb (fun n => ascii_list_eqb (String.list_ascii_of_string (fmt_d 2 n))
                      (two_digits n))
    (zrange 0 (Z.to_nat 100)) = true.
Proof. vm_compute. reflexivity. Qed.

Lemma fmt_d_4_checked :
  forallb (fun n => ascii_list_eqb (String.list_ascii_of_string (fmt_d 4 n))
                      (four_digits n))
    (zrange 0 (Z.to_nat 10000)) = true.
Proof. vm_compute. reflexivity. Qed.

Lemma fmt_d_2 n :
  0 <= n <= 99 -> String.list_ascii_of_string (fmt_d 2 n) = two_digits n.
Proof.
  intros Hn. apply ascii_list_eqb_eq.
  apply (forallb_zrange _ _ _ fmt_d_2_checked n). lia.
Qed.

Lemma fmt_d_4 n :
  0 <= n <= 9999 -> String.list_ascii_of_string (fmt_d 4 n) = four_digits n.
Proof.
  intros Hn. apply ascii_list_eqb_eq.
  apply (forallb_zrange _ _ _ fmt_d_4_checked n). lia.
Qed.

Lemma canonical_chars y m d H M :
  0 <= y <= 9999 -> 0 <= m <= 99 -> 0 <= d <= 99 -> 0 <= H <= 99 ->
  0 <= M <= 99 ->
  String.list_ascii_of_string (canonical y m d H M)
  = four_digits y ++ dash :: two_digits m ++ dash :: two_digits d
    ++ space :: two_digits H ++ colon :: two_digits M ++ [].
Proof.
  intros Hy Hm Hd HH HM. unfold canonical.
  rewrite !list_ascii_app, (fmt_d_4 y Hy), (fmt_d_2 m Hm), (fmt_d_2 d Hd),
    (fmt_d_2 H HH), (fmt_d_2 M HM).
  reflexivity.
Qed.

Lemma format_regex_canonical y m d H M :
  0 <= y <= 9999 -> 1 <= m <= 12 -> 1 <= d <= 31 -> 0 <= H <= 23 ->
  0 <= M <= 59 ->
  first_match format_regex
    (String.list_ascii_of_string (canonical y m d H M)) (y, m, d, H, M) [].
Proof.
  intros Hy Hm Hd HH HM.
  rewrite canonical_chars by lia. unfold format_regex.
  eapply first_andthen; [apply first_re_Y; lia|].
  eapply first_andthen; [apply first_lit; reflexivity|].
  eapply first_andthen; [apply first_re_m; lia|].
  eapply first_andthen; [apply first_lit; reflexivity|].
  eapply first_andthen; [apply first_re_d; lia|].
  eapply first_andthen;
    [unfold two_digits at 1; simpl app; apply first_re_spaces;
     apply (digit_split H); lia|].
  eapply first_andthen; [apply (first_re_H H); lia|].
  eapply first_andthen; [apply first_lit; reflexivity|].
  eapply first_andthen; [apply (first_re_M M); lia|].
  apply first_pure.
Qed.

End Canonical.

Lemma strptime_reads_start y m d H M :
  1 <= y <= 9999 -> 1 <= m <= 12 -> 1 <= d <= _days_in_month y m ->
  0 <= H <= 23 -> 0 <= M <= 59 ->
  Strptime.strptime (canonical y m d H M)
  = Return (mk_datetime y m d H M 0 0)
  /\ isoformat (mk_datetime y m d H M 0 0) = iso_expansion y m d H M.
Proof.
  intros Hy Hm Hd HH HM. split; [|reflexivity].
  pose proof (days_in_month_bounds y m Hm) as Hdim.
  unfold Strptime.strptime.
  destruct (Canonical.format_regex_canonical y m d H M) as [more ->]; try lia.
  unfold datetime_ymd, MINYEAR, MAXYEAR.
  rewrite !fits_int_true by lia. cbn [andb negb].
  replace ((1 <=? y) && (y <=? 9999)) with true by (symmetry; apply andb_true_iff; lia).
  replace ((1 <=? m) && (m <=? 12)) with true by (symmetry; apply andb_true_iff; lia).
  replace ((1 <=? d) && (d <=? _days_in_month y m)) with true
    by (symmetry; apply andb_true_iff; lia).
  reflexivity.
Qed.

(** X13.  [strptime] reads the zero-padded form [YYYY-MM-DD HH:MM] of
    every valid date and time back to exactly that date and time, and the
    [isoformat] of the result is [YYYY-MM-DDTHH:MM:00]. *)
Theorem strptime_reads_canonical_form y m d H M :
  1 <= y <= 9999 -> 1 <= m <= 12 -> 1 <= d <= _days_in_month y m ->
  0 <= H <= 23 -> 0 <= M <= 59 ->
  Strptime.strptime (canonical y m d H M)
  = Return (mk_datetime y m d H M 0 0)
  /\ isoformat (mk_datetime y m d H M 0 0) = iso_expansion y m d H M.
Proof. exact (strptime_reads_start y m d H M). Qed.

(** X9.  For any two valid dates and times written in the zero-padded
    form [YYYY-MM-DD HH:MM], [add_event] sends one insert request whose
    start and end carry the ISO 8601 expansions [YYYY-MM-DDTHH:MM:00] with
    the given time zone, then prints the link of the created event.  The
    two dates are not compared: an end before the start is sent as well. *)
Theorem add_event_sends_iso_expansion
    w title tz loc desc created σ σ1 t1 y m d H M y' m' d' H' M' :
  _create_service w σ = (σ1, t1, Return (Some Service)) ->
  valid_minute y m d H M ->
  valid_minute y' m' d' H' M' ->
  insert_execute w
    (mk_body title loc desc (mk_time (iso_expansion y m d H M) tz)
       (mk_time (iso_expansion y' m' d' H' M') tz) []) = Return created ->
  add_event w title (canonical y m d H M) (canonical y' m' d' H' M')
    tz loc desc σ
  = (σ1,
     t1 ++ [EventsInsert
              (mk_body title loc desc (mk_time (iso_expansion y m d H M) tz)
                 (mk_time (iso_expansion y' m' d' H' M') tz) []);
            Stdout ("Event created successfully: " +:+ str (e_htmlLink created))],
     Return tt).
Proof.
  intros Hcs (Hy & Hm & Hd & HH & HM) (Hy' & Hm' & Hd' & HH' & HM') Hins.
  destruct (strptime_reads_start y m d H M Hy Hm Hd HH HM) as [Hs Hiso].
  destruct (strptime_reads_start y' m' d' H' M' Hy' Hm' Hd' HH' HM')
    as [He Hiso'].
  unfold add_event. rewrite (bind_Return _ _ _ _ _ _ Hcs). run.
  rewrite Hs, He. simpl. rewrite Hiso, Hiso', Hins. reflexivity.
Qed.

(** ** Instances *)

Lemma listing_prints_one_row_per_event_witness :
  list_upcoming_events
    (with_list (Return (mk_list_response (Some [dinner; dinner]))) utc_world)
    2 empty_store
  = (store_with_new empty_store (header :: map row_cells [dinner; dinner]),
     [TokenRead; Build]
     ++ [Stdout (upcoming_banner 2);
         EventsList (upcoming_request utc_world 2);
         Stdout (get_string utc_world header (map row_cells [dinner; dinner]))],
     Return tt).
Proof.
  apply (listing_prints_one_row_per_event
           (with_list (Return (mk_list_response (Some [dinner; dinner]))) utc_world)
           empty_store empty_store [TokenRead; Build] [dinner; dinner] eq_refl).
  - discriminate.
  - repeat constructor.
  - reflexivity.
Defined.

Lemma listing_fails_on_missing_key_witness :
  list_upcoming_events
    (with_list (Return (mk_list_response (Some ([dinner] ++ untitled :: [dinner]))))
       utc_world) 3 empty_store
  = (empty_store,
     [TokenRead; Build]
     ++ [Stdout (upcoming_banner 3); EventsList (upcoming_request utc_world 3)],
     Raise (KeyError "summary")).
Proof.
  apply (listing_fails_on_missing_key
           (with_list (Return (mk_list_response (Some ([dinner] ++ untitled :: [dinner]))))
              utc_world)
           empty_store empty_store [TokenRead; Build] [dinner] untitled [dinner]
           "summary" eq_refl).
  - repeat constructor.
  - reflexivity.
  - reflexivity.
Defined.

Lemma listing_catches_only_HttpError_witness :
  list_upcoming_events (with_list (Raise connection_lost) utc_world) 10 empty_store
  = (empty_store,
     [TokenRead; Build]
     ++ [Stdout (upcoming_banner 10); EventsList (upcoming_request utc_world 10)],
     Raise connection_lost).
Proof.
  apply (listing_catches_only_HttpError
           (with_list (Raise connection_lost) utc_world)
           empty_store empty_store [TokenRead; Build] connection_lost eq_refl).
  reflexivity.
Defined.

Lemma add_event_insert_failure_escapes_witness :
  add_event (with_insert (Raise connection_lost) utc_world)
    "Dinner" "2022-10-10 18:00" "2022-10-10 19:00" "UTC" "Unknown"
    "No description" empty_store
  = (empty_store, [TokenRead; Build] ++ [EventsInsert dinner_body],
     Raise connection_lost).
Proof.
  apply (add_event_insert_failure_escapes
           (with_insert (Raise connection_lost) utc_world)
           "Dinner" "2022-10-10 18:00" "2022-10-10 19:00" "UTC" "Unknown"
           "No description"
           (mk_datetime 2022 10 10 18 0 0 0) (mk_datetime 2022 10 10 19 0 0 0)
           empty_store empty_store [TokenRead; Build] connection_lost);
    reflexivity.
Defined.

Lemma add_event_rejects_bad_dates_after_setup_witness :
  add_event utc_world "Dinner" "2022-10-10 18:00" "2022-10-10 7pm" "UTC"
    "Unknown" "No description" empty_store
  = (empty_store, [TokenRead; Build], Raise ValueError).
Proof.
  apply (add_event_rejects_bad_dates_after_setup utc_world
           "Dinner" "2022-10-10 18:00" "2022-10-10 7pm" "UTC" "Unknown"
           "No description" empty_store empty_store [TokenRead; Build]
           (Some Service) eq_refl); [reflexivity | reflexivity |].
  right. exists (mk_datetime 2022 10 10 18 0 0 0), ValueError.
  split; reflexivity.
Defined.

Lemma delete_event_needs_a_summary_witness :
  delete_event (with_get (Return untitled) utc_world) "e2" empty_store
  = (empty_store, [TokenRead; Build] ++ [EventsGet "e2"],
     Raise (KeyError "summary")).
Proof.
  apply (delete_event_needs_a_summary (with_get (Return untitled) utc_world)
           "e2" untitled empty_store empty_store [TokenRead; Build]);
    reflexivity.
Defined.

Lemma delete_event_failed_delete_is_not_reported_witness :
  delete_event
    (with_delete (Raise unavailable)
       (with_confirm (Return true) (with_get (Return dinner) utc_world)))
    "e1" empty_store
  = (empty_store,
     [TokenRead; Build]
     ++ [EventsGet "e1";
         Confirm (delete_prompt "2022-10-10T18:00:00+02:00: Dinner") (Return true);
         EventsDelete "e1"],
     Raise unavailable).
Proof.
  apply (delete_event_failed_delete_is_not_reported
           (with_delete (Raise unavailable)
              (with_confirm (Return true) (with_get (Return dinner) utc_world)))
           "e1" dinner "2022-10-10T18:00:00+02:00: Dinner" unavailable
           empty_store empty_store [TokenRead; Build]);
    reflexivity.
Defined.

Lemma pretty_print_table_rejects_short_row_witness :
  _pretty_print_table utc_world 0%nat (one_list [[Some "2022-10-10"; Some "e1"]])
  = (mk_store (<[0%nat := [header; [Some "2022-10-10"; Some "e1"]]]>
                 (objects (one_list [[Some "2022-10-10"; Some "e1"]]))) 1%nat,
     [], Raise ValueError).
Proof.
  apply (pretty_print_table_rejects_short_row utc_world 0%nat
           [[Some "2022-10-10"; Some "e1"]]
           (one_list [[Some "2022-10-10"; Some "e1"]])).
  - reflexivity.
  - constructor. simpl. lia.
Defined.

Lemma pretty_print_table_twice_repeats_header_witness :
  (_pretty_print_table utc_world 0%nat
     ≫= fun _ => _pretty_print_table utc_world 0%nat) (one_list [])
  = (mk_store (<[0%nat := [header; header]]> (objects (one_list []))) 1%nat,
     [Stdout (get_string utc_world header []);
      Stdout (get_string utc_world header [header])],
     Return tt).
Proof.
  apply (pretty_print_table_twice_repeats_header utc_world 0%nat [] (one_list [])).
  - reflexivity.
  - constructor.
Defined.

Lemma month_range_spans_the_month_witness :
  instant_us (mk_aware (last_millisecond 2024 2) 0)
  - instant_us (mk_aware (midnight 2024 2 1) 0)
  = _days_in_month 2024 2 * US_PER_DAY - 1000 + (0 - 0) * US_PER_SECOND
  /\ instant_us (mk_aware (midnight 2024 2 1) 0)
     < instant_us (mk_aware (last_millisecond 2024 2) 0).
Proof.
  apply (month_range_spans_the_month utc_world 2024 2 2024 3 0 0
           (mk_range (mk_aware (midnight 2024 2 1) 0)
              (mk_aware (last_millisecond 2024 2) 0)));
    try reflexivity; try lia; try discriminate;
    intros u Hu; reflexivity.
Defined.

Lemma consecutive_month_ranges_meet_witness :
  aware_sub (mk_aware (midnight 2023 1 1) 0) (timedelta_milliseconds 1)
  = Return (mk_aware (last_millisecond 2022 12) 0)
  /\ instant_us (mk_aware (midnight 2023 1 1) 0)
     = instant_us (mk_aware (last_millisecond 2022 12) 0) + 1000.
Proof.
  apply (consecutive_month_ranges_meet utc_world 2022 12 2023 1
           (mk_range (mk_aware (midnight 2022 12 1) 0)
              (mk_aware (last_millisecond 2022 12) 0))
           (mk_range (mk_aware (midnight 2023 1 1) 0)
              (mk_aware (last_millisecond 2023 1) 0)));
    try reflexivity; lia.
Defined.

Lemma list_events_for_month_bad_year_witness :
  list_events_for_month utc_world 0 6 empty_store
  = (empty_store, [TokenRead; Build], Raise ValueError).
Proof.
  apply (list_events_for_month_bad_year utc_world 0 6 empty_store empty_store
           [TokenRead; Build] (Some Service) eq_refl); lia.
Defined.

Lemma setup_failure_leaves_every_command_witness :
  list_upcoming_events
    (with_refresh (Raise (HttpError 400 "invalid_grant"))
       (with_token expired_token utc_world)) 10 empty_store
  = (empty_store, [TokenRead; TokenRefresh],
     Raise (HttpError 400 "invalid_grant")).
Proof.
  apply (setup_failure_leaves_every_command
           (with_refresh (Raise (HttpError 400 "invalid_grant"))
              (with_token expired_token utc_world))
           empty_store empty_store [TokenRead; TokenRefresh]
           (HttpError 400 "invalid_grant") eq_refl).
Defined.

Lemma strptime_returns_valid_minute_witness :
  1 <= 2022 <= 9999 /\ 1 <= 10 <= 12
  /\ 1 <= 10 <= _days_in_month 2022 10
  /\ 0 <= 18 <= 23 /\ 0 <= 5 <= 59 /\ 0 = 0 /\ 0 = 0.
Proof.
  apply (strptime_returns_valid_minute "2022-10-10 18:05"
           (mk_datetime 2022 10 10 18 5 0 0)); reflexivity.
Defined.

Lemma strptime_reads_canonical_form_witness :
  Strptime.strptime "2024-02-29 23:59" = Return (mk_datetime 2024 2 29 23 59 0 0)
  /\ isoformat (mk_datetime 2024 2 29 23 59 0 0) = "2024-02-29T23:59:00".
Proof.
  apply (strptime_reads_canonical_form 2024 2 29 23 59); vm_compute;
    intuition discriminate.
Defined.

Lemma add_event_sends_iso_expansion_witness :
  add_event utc_world "Dinner" "2022-10-10 18:00" "2022-10-10 19:00" "UTC"
    "Unknown" "No description" empty_store
  = (empty_store,
     [TokenRead; Build]
     ++ [EventsInsert dinner_body;
         Stdout "Event created successfully: https://calendar.example/e1"],
     Return tt).
Proof.
  apply (add_event_sends_iso_expansion utc_world "Dinner" "UTC" "Unknown"
           "No description"
           (mk_event (Some (mk_start (Some "2022-10-10T18:00:00") None))
              (Some "e1") (Some "Dinner") (Some "https://calendar.example/e1"))
           empty_store empty_store [TokenRead; Build]
           2022 10 10 18 0 2022 10 10 19 0 eq_refl);
    [ vm_compute; intuition discriminate
    | vm_compute; intuition discriminate
    | reflexivity ].
Defined.
